(** * Component identification engine of [lib/rekognition.js]

    A shallow embedding of [ComponentAnalyzer]: the type classifier
    ([identifyComponentType]), the three attribute extractors
    ([analyzeResistor], [analyzeCapacitor], [analyzeIC]), the result
    assembler ([interpretResults]) and the summary renderer
    ([generateIdentificationSummary]), together with the parts of the
    ECMAScript runtime they call: strings of UTF-16 code units, case
    conversion, [includes], [trim], the stable [Array.prototype.sort],
    [Number.prototype.toFixed] and a backtracking regular-expression
    matcher for the four pattern literals of the file. *)

From Stdlib Require Import List NArith ZArith QArith Qround Qabs.
From Stdlib Require Import String Ascii Bool Lia Permutation Sorted.
From Stdlib Require Import DecimalString Lqa.
From Stdlib Require DecimalPos DecimalN.
Import ListNotations.

Set Implicit Arguments.
Local Close Scope Q_scope.
Local Open Scope list_scope.

(* ===================================================================== *)
(** ** ECMAScript strings *)
(* ===================================================================== *)

Module JS.

(** A string value is a finite sequence of 16-bit code units. *)
Definition jsstring := list N.

(** [js "abc"] is the string value of an ASCII literal. *)
Definition js (s : string) : jsstring :=
  map N_of_ascii (list_ascii_of_string s).

(** Code units of the non-ASCII characters the source file contains. *)
Definition OMEGA : N := 0x3A9.        (* GREEK CAPITAL LETTER OMEGA *)
Definition omega : N := 0x3C9.        (* GREEK SMALL LETTER OMEGA *)
Definition MICRO : N := 0xB5.         (* MICRO SIGN *)
Definition mu : N := 0x3BC.           (* GREEK SMALL LETTER MU *)
Definition MU : N := 0x39C.           (* GREEK CAPITAL LETTER MU *)

Definition between (lo hi c : N) : bool := ((lo <=? c) && (c <=? hi))%N.

(** [a === b] on strings. *)
Definition eqs (a b : jsstring) : bool :=
  if list_eq_dec N.eq_dec a b then true else false.

(** [String.prototype.toLowerCase].  ASCII capitals move to their small
    letters.  Two code units outside ASCII have a lowercase form that
    contains an ASCII letter: U+0130 (i followed by U+0307) and the
    Kelvin sign U+212A (k).  Every other code unit is left in place: its
    lowercase form contains no ASCII code unit, and the source only ever
    searches a lowercased string for ASCII keywords. *)
Definition lowerUnit (c : N) : list N :=
  if between 65 90 c then [(c + 32)%N]
  else if (c =? 0x130)%N then [0x69%N; 0x307%N]
  else if (c =? 0x212A)%N then [0x6B%N]
  else [c].

Definition toLowerCase (s : jsstring) : jsstring := flat_map lowerUnit s.

(** [String.prototype.toUpperCase] on the strings [analyzeIC] gives it:
    the first two code units of a line whose trimmed form passed the
    part-number test, that is ASCII letters, digits and white space
    ([prefix_domain] below).  On those the conversion moves ASCII small
    letters to capitals and leaves the rest. *)
Definition upperUnit (c : N) : N :=
  if between 97 122 c then (c - 32)%N else c.

Definition toUpperCase (s : jsstring) : jsstring := map upperUnit s.

(** [String.prototype.includes]: [p] occurs in [s] as a contiguous run. *)
Fixpoint startsWith (p s : jsstring) : bool :=
  match p, s with
  | [], _ => true
  | _ :: _, [] => false
  | a :: p', b :: s' => (a =? b)%N && startsWith p' s'
  end.

Fixpoint includes (s p : jsstring) : bool :=
  startsWith p s ||
  match s with
  | [] => false
  | _ :: s' => includes s' p
  end.

(** WhiteSpace and LineTerminator code units: what [\s] matches and what
    [trim] strips. *)
Definition whiteSpace : list N :=
  [0x9; 0xA; 0xB; 0xC; 0xD; 0x20; 0xA0; 0x1680;
   0x2000; 0x2001; 0x2002; 0x2003; 0x2004; 0x2005; 0x2006; 0x2007;
   0x2008; 0x2009; 0x200A; 0x2028; 0x2029; 0x202F; 0x205F; 0x3000;
   0xFEFF]%N.

Definition isWhiteSpace (c : N) : bool := existsb (N.eqb c) whiteSpace.

Fixpoint trimStart (s : jsstring) : jsstring :=
  match s with
  | c :: s' => if isWhiteSpace c then trimStart s' else s
  | [] => []
  end.

(** [String.prototype.trim]. *)
Definition trim (s : jsstring) : jsstring :=
  rev (trimStart (rev (trimStart s))).

(** [String.prototype.substring(0, n)]. *)
Definition substring0 (n : nat) (s : jsstring) : jsstring := firstn n s.

(** [Array.prototype.join]. *)
Fixpoint join (sep : jsstring) (l : list jsstring) : jsstring :=
  match l with
  | [] => []
  | [x] => x
  | x :: rest => x ++ sep ++ join sep rest
  end.

(** Interpolation of a value that may be [undefined] in a template
    literal. *)
Definition interp (v : option jsstring) : jsstring :=
  match v with
  | Some s => s
  | None => js "undefined"
  end.

(** Truthiness of a value that is a string or [null]. *)
Definition truthy (v : option jsstring) : bool :=
  match v with
  | Some (_ :: _) => true
  | _ => false
  end.

(** *** Numbers

    A confidence is a finite double; it is represented by the rational
    it denotes.  The difference of two finite doubles is rounded, but it
    is zero exactly when they are equal and otherwise has the sign of
    the exact difference, so a comparator that subtracts orders the
    values as the rationals do. *)

Definition decimal (n : Z) : jsstring :=
  js (NilZero.string_of_uint (N.to_uint (Z.to_N n))).

(** [Number.prototype.toFixed(f)], for magnitudes below 10^21 (above
    that the runtime switches to exponent notation; confidences are at
    most 100).  [n] is the integer nearest to [x * 10^f], the larger one
    on a tie. *)
Definition toFixed (f : nat) (x : Q) : jsstring :=
  let s := if Qle_bool 0 x then [] else js "-" in
  let x := Qabs x in
  let n := Qfloor (x * inject_Z (10 ^ Z.of_nat f) + (1 # 2))%Q in
  let m := decimal n in
  let m := if (List.length m <=? f)%nat
           then repeat 48%N (f + 1 - List.length m) ++ m else m in
  let k := List.length m in
  let m := match f with
           | O => m
           | _ => firstn (k - f) m ++ js "." ++ skipn (k - f) m
           end in
  s ++ m.

(** *** [Array.prototype.sort]

    The sort is stable, and for a comparator that is consistent its
    result is fixed by the language, whatever algorithm the engine uses:
    [a] stays before a later [b] unless [comparefn a b > 0]. *)
Section Sort.
Variable A : Type.
Variable comparefn : A -> A -> Q.

Fixpoint insert (x : A) (l : list A) : list A :=
  match l with
  | [] => [x]
  | y :: l' =>
      if Qle_bool (comparefn x y) 0 then x :: y :: l'
      else y :: insert x l'
  end.

Fixpoint sort (l : list A) : list A :=
  match l with
  | [] => []
  | x :: l' => insert x (sort l')
  end.
End Sort.

End JS.

(* ===================================================================== *)
(** ** Regular expressions *)
(* ===================================================================== *)

Module RegExp.
Import JS.

(** Canonicalize of a pattern compiled with the [i] flag and without the
    [u] flag: the uppercase form of the code unit when that is a single
    code unit, except that a non-ASCII code unit never canonicalizes to
    an ASCII one.  The table is restricted to the classes of the code
    units that occur in the patterns below (ASCII, the micro sign and
    mu, omega): any other code unit canonicalizes to something that is
    not in one of those classes, and is left as its own representative. *)
Definition Canonicalize (ch : N) : N :=
  if between 97 122 ch then (ch - 32)%N
  else if (ch =? MICRO)%N || (ch =? mu)%N then MU
  else if (ch =? omega)%N then OMEGA
  else ch.

(** Pattern syntax, as far as the four literals use it. *)
Inductive regex : Type :=
| Empty : regex
| CharSet (members : list N) : regex        (* a character, a class, \d, \s *)
| Seq (r1 r2 : regex) : regex
| Alt (r1 r2 : regex) : regex               (* r1|r2 *)
| Quant (min : nat) (max : option nat) (r : regex) : regex
                                             (* greedy r{min,max}; None is unbounded *)
| Group (i : nat) (r : regex) : regex       (* the i-th capturing parentheses *)
| Bol : regex                               (* ^ *)
| Eol : regex.                              (* $ *)

(** Captures: the index of a group with the substring it matched last. *)
Definition captures := list (nat * jsstring).

Fixpoint capture (i : nat) (c : captures) : option jsstring :=
  match c with
  | [] => None
  | (j, s) :: c' => if Nat.eqb i j then Some s else capture i c'
  end.

(** A match state is the part of the input that is still ahead, with the
    captures so far; [endIndex] of a state is the length of the input
    minus the length of what is ahead. *)
Definition continuation := jsstring -> captures -> option (jsstring * captures).

(** CharacterSetMatcher with IgnoreCase: [ch] is accepted when some
    member of the set has the canonical form of [ch]. *)
Definition accepts (members : list N) (ch : N) : bool :=
  existsb (fun a => (Canonicalize a =? Canonicalize ch)%N) members.

Definition pred_max (max : option nat) : option nat :=
  match max with
  | Some n => Some (pred n)
  | None => None
  end.

(** A matcher takes a state and a continuation, and backtracks into its
    alternatives when the continuation fails. *)
Definition matcherOf : Type :=
  jsstring -> captures -> continuation -> option (jsstring * captures).

(** RepeatMatcher for a greedy quantifier over the atom matcher [m]: with
    [min] iterations still owed the atom must match; afterwards an
    iteration is tried first and the continuation second, and an
    iteration that leaves [endIndex] where it was is rejected.  [fuel]
    bounds the number of iterations; every iteration after the owed ones
    consumes input, so [min + length x + 1] is never used up
    ([repeatMatcher_fuel] below).  No literal of the file has a group
    under a quantifier, so there is no capture to reset between
    iterations. *)
Fixpoint repeatMatcher (m : matcherOf) (fuel : nat) (min : nat)
         (max : option nat) (x : jsstring) (c : captures) (k : continuation)
         {struct fuel} : option (jsstring * captures) :=
  match fuel with
  | O => None
  | S fuel' =>
      match max with
      | Some O => k x c
      | _ =>
          let d : continuation := fun y c' =>
            if (min =? 0)%nat && (List.length y =? List.length x)%nat
            then None
            else repeatMatcher m fuel' (pred min) (pred_max max) y c' k in
          match min with
          | S _ => m x c d
          | O =>
              match m x c d with
              | Some z => Some z
              | None => k x c
              end
          end
      end
  end.

(** The matcher of a pattern, after the language definition.  [whole] is
    the whole input, for [^]. *)
Fixpoint matcher (whole : jsstring) (r : regex) {struct r} : matcherOf :=
  fun x c k =>
  match r with
  | Empty => k x c
  | CharSet members =>
      match x with
      | ch :: x' => if accepts members ch then k x' c else None
      | [] => None
      end
  | Seq r1 r2 =>
      matcher whole r1 x c (fun y c' => matcher whole r2 y c' k)
  | Alt r1 r2 =>
      match matcher whole r1 x c k with
      | Some z => Some z
      | None => matcher whole r2 x c k
      end
  | Group i r1 =>
      matcher whole r1 x c
        (fun y c' => k y ((i, firstn (List.length x - List.length y) x) :: c'))
  | Bol => if (List.length x =? List.length whole)%nat then k x c else None
  | Eol => match x with [] => k x c | _ :: _ => None end
  | Quant min max r1 =>
      repeatMatcher (matcher whole r1) (min + List.length x + 1) min max x c k
  end.

(** The result of [RegExp.prototype.exec] / [String.prototype.match] on a
    pattern without the [g] flag: element 0 is the matched substring,
    element [i] the capture of group [i] ([None] is [undefined]). *)
Record MatchResult : Type := mkMatch {
  matched : jsstring;
  groups : captures
}.

Definition at_ (m : MatchResult) (i : nat) : option jsstring :=
  match i with
  | O => Some (matched m)
  | _ => capture i (groups m)
  end.

(** Try the pattern at [lastIndex = 0], then at each later index. *)
Fixpoint execFrom (whole : jsstring) (r : regex) (x : jsstring)
  : option MatchResult :=
  match matcher whole r x [] (fun y c => Some (y, c)) with
  | Some (y, c) =>
      Some (mkMatch (firstn (List.length x - List.length y) x) c)
  | None =>
      match x with
      | [] => None
      | _ :: x' => execFrom whole r x'
      end
  end.

(** [str.match(r)]: the match array, or [None] for [null]. *)
Definition match_ (str : jsstring) (r : regex) : option MatchResult :=
  execFrom str r str.

(** [r.test(str)]. *)
Definition test (r : regex) (str : jsstring) : bool :=
  match match_ str r with
  | Some _ => true
  | None => false
  end.

(** Pattern notation. *)
Definition chr (s : string) : regex := CharSet (js s).     (* one of the characters of [s] *)
Fixpoint range (lo : N) (n : nat) : list N :=
  match n with
  | O => []
  | S n' => lo :: range (lo + 1)%N n'
  end.
Definition digit : regex := CharSet (range 48 10).          (* \d *)
Definition space : regex := CharSet whiteSpace.             (* \s *)
Definition plus (r : regex) : regex := Quant 1 None r.
Definition star (r : regex) : regex := Quant 0 None r.
Definition opt (r : regex) : regex := Quant 0 (Some 1) r.
Fixpoint lit (s : jsstring) : regex :=
  match s with
  | [] => Empty
  | ch :: s' => Seq (CharSet [ch]) (lit s')
  end.
Fixpoint seq (rs : list regex) : regex :=
  match rs with
  | [] => Empty
  | r :: rs' => Seq r (seq rs')
  end.

(** A matcher is advancing when it hands its continuation only states
    that are not behind the one it started from: two continuations that
    agree on those states are interchangeable. *)
Definition advancing (m : matcherOf) : Prop :=
  forall (x : jsstring) (c : captures) (k1 k2 : continuation),
    (forall y c', List.length y <= List.length x -> k1 y c' = k2 y c') ->
    m x c k1 = m x c k2.

(** What a pattern can match, without the order in which the matcher
    tries its alternatives: [derives whole r x c y c'] when [r] can take
    the state [x], [c] to the state [y], [c']. *)
Inductive derives (whole : jsstring)
  : regex -> jsstring -> captures -> jsstring -> captures -> Prop :=
| D_Empty : forall x c, derives whole Empty x c x c
| D_CharSet : forall members ch x c,
    accepts members ch = true ->
    derives whole (CharSet members) (ch :: x) c x c
| D_Seq : forall r1 r2 x c y c1 z c2,
    derives whole r1 x c y c1 -> derives whole r2 y c1 z c2 ->
    derives whole (Seq r1 r2) x c z c2
| D_Alt1 : forall r1 r2 x c y c',
    derives whole r1 x c y c' -> derives whole (Alt r1 r2) x c y c'
| D_Alt2 : forall r1 r2 x c y c',
    derives whole r2 x c y c' -> derives whole (Alt r1 r2) x c y c'
| D_Group : forall i r x c y c',
    derives whole r x c y c' ->
    derives whole (Group i r) x c y
      ((i, firstn (List.length x - List.length y) x) :: c')
| D_Bol : forall x c,
    List.length x = List.length whole -> derives whole Bol x c x c
| D_Eol : forall c, derives whole Eol [] c [] c
| D_QuantStop : forall min max r x c,
    min = O \/ max = Some O -> derives whole (Quant min max r) x c x c
| D_QuantIter : forall min max r x c y c1 z c2,
    max <> Some O ->
    derives whole r x c y c1 ->
    derives whole (Quant (pred min) (pred_max max) r) y c1 z c2 ->
    derives whole (Quant min max r) x c z c2.

(** A pattern without capturing parentheses. *)
Fixpoint groupless (r : regex) : bool :=
  match r with
  | Empty | CharSet _ | Bol | Eol => true
  | Seq r1 r2 | Alt r1 r2 => groupless r1 && groupless r2
  | Quant _ _ r1 => groupless r1
  | Group _ _ => false
  end.

End RegExp.

(* ===================================================================== *)
(** ** lib/constants.js *)
(* ===================================================================== *)

Module Constants.
Import JS.

(** [ResistorColorCodes], in key order. *)
Definition ResistorColorCodes : list (jsstring * Z) :=
  [ (js "BLACK", 0%Z); (js "BROWN", 1%Z); (js "RED", 2%Z);
    (js "ORANGE", 3%Z); (js "YELLOW", 4%Z); (js "GREEN", 5%Z);
    (js "BLUE", 6%Z); (js "VIOLET", 7%Z); (js "GREY", 8%Z);
    (js "WHITE", 9%Z) ].

(** [Object.keys]. *)
Definition keys (A : Type) (o : list (jsstring * A)) : list jsstring :=
  map fst o.

(** [ComponentTypes], in key order. *)
Definition ComponentTypes : list (jsstring * jsstring) :=
  [ (js "RESISTOR", js "resistor"); (js "CAPACITOR", js "capacitor");
    (js "INDUCTOR", js "inductor"); (js "DIODE", js "diode");
    (js "TRANSISTOR", js "transistor"); (js "IC", js "integrated_circuit");
    (js "LED", js "led"); (js "CONNECTOR", js "connector");
    (js "SWITCH", js "switch"); (js "SENSOR", js "sensor");
    (js "OTHER", js "other") ].

(** [StockThresholds]. *)
Definition StockThresholds : list (jsstring * Q) :=
  [ (js "CRITICAL", 5%Q); (js "LOW", 10%Q); (js "NORMAL", 20%Q) ].

(** [Object.values]. *)
Definition values (A : Type) (o : list (jsstring * A)) : list A :=
  map snd o.

End Constants.

(* ===================================================================== *)
(** ** Data of lib/rekognition.js *)
(* ===================================================================== *)

Import JS.

(** A label of the vision service: [{ Name, Confidence }]. *)
Module Label.
Record t : Type := mk { Name : jsstring; Confidence : Q }.
End Label.

(** A text detection: [{ DetectedText, Confidence, Type }]; [Type_] is
    the property [Type]. *)
Module TextDetection.
Record t : Type := mk {
  DetectedText : jsstring;
  Confidence : Q;
  Type_ : jsstring
}.
End TextDetection.

(** An element of [detectedLabels]: [{ name, confidence }]. *)
Module DetectedLabel.
Record t : Type := mk { name : jsstring; confidence : Q }.
End DetectedLabel.

(** An element of [detectedText]: [{ text, confidence }]. *)
Module TextLine.
Record t : Type := mk { text : jsstring; confidence : Q }.
End TextLine.

(** An element of [possibleTypes]: [{ type, confidence, matchedLabel }]. *)
Module TypeMatch.
Record t : Type := mk {
  type : jsstring;
  confidence : Q;
  matchedLabel : jsstring
}.
End TypeMatch.

(** The object [analyzeResistor] returns; [note] is set only on the
    colour-band path. *)
Module ResistorAnalysis.
Record t : Type := mk {
  hasColorBands : bool;
  detectedColors : list jsstring;
  estimatedValue : option jsstring;
  note : option jsstring
}.
End ResistorAnalysis.

(** The object [analyzeCapacitor] returns; [None] is [null]. *)
Module CapacitorAnalysis.
Record t : Type := mk {
  estimatedValue : option jsstring;
  voltage : option jsstring
}.
End CapacitorAnalysis.

(** The object [analyzeIC] returns. *)
Module ICAnalysis.
Record t : Type := mk {
  partNumbers : list jsstring;
  manufacturers : list jsstring
}.
End ICAnalysis.

(** The [analysis] object: each property is present or not. *)
Module Analysis.
Record t : Type := mk {
  resistor : option ResistorAnalysis.t;
  capacitor : option CapacitorAnalysis.t;
  ic : option ICAnalysis.t
}.
Definition empty : t := mk None None None.
End Analysis.

(** [componentData], the identification result. *)
Module ComponentData.
Record t : Type := mk {
  confidence : Q;
  type : jsstring;
  possibleTypes : list TypeMatch.t;
  detectedLabels : list DetectedLabel.t;
  detectedText : list TextLine.t;
  analysis : Analysis.t
}.
End ComponentData.

(* ===================================================================== *)
(** ** class ComponentAnalyzer *)
(* ===================================================================== *)

Module ComponentAnalyzer.
Import RegExp.

(** [t => t.Type === 'LINE'] *)
Definition isLine (t : TextDetection.t) : bool :=
  eqs (TextDetection.Type_ t) (js "LINE").

(** [textDetections.filter(t => t.Type === 'LINE').map(t => t.DetectedText)] *)
Definition lineTexts (textDetections : list TextDetection.t) : list jsstring :=
  map TextDetection.DetectedText (filter isLine textDetections).

(** *** identifyComponentType *)

(** [typeKeywords]; [Object.entries] lists it in this order. *)
Definition typeKeywords : list (jsstring * list jsstring) :=
  [ (js "resistor",
      [js "resistor"; js "resistance"; js "band"; js "cylinder";
       js "electronic component"]);
    (js "capacitor", [js "capacitor"; js "electrolytic"; js "ceramic"]);
    (js "diode", [js "diode"; js "led"; js "semiconductor"]);
    (js "transistor", [js "transistor"; js "mosfet"; js "bjt"]);
    (js "integrated_circuit",
      [js "chip"; js "ic"; js "microchip"; js "processor";
       js "circuit board"]);
    (js "connector", [js "connector"; js "pin"; js "header"; js "socket"]);
    (js "inductor", [js "inductor"; js "coil"]) ].

(** The inner loop [for (const label of labels)]: on the first label one
    of whose keywords occurs in its lowercased name, push a match and
    [break]. *)
Fixpoint scanLabels (type : jsstring) (keywords : list jsstring)
         (labels : list Label.t) (matches : list TypeMatch.t)
  : list TypeMatch.t :=
  match labels with
  | [] => matches
  | label :: rest =>
      let labelLower := toLowerCase (Label.Name label) in
      if existsb (fun keyword => includes labelLower keyword) keywords
      then matches ++ [ TypeMatch.mk type (Label.Confidence label)
                                     (Label.Name label) ]
      else scanLabels type keywords rest matches
  end.

(** [(a, b) => b.confidence - a.confidence] *)
Definition byConfidenceDesc (a b : TypeMatch.t) : Q :=
  (TypeMatch.confidence b - TypeMatch.confidence a)%Q.

Definition identifyComponentType (labels : list Label.t) : list TypeMatch.t :=
  let matches :=
    fold_left
      (fun matches entry =>
         let '(type, keywords) := entry in
         scanLabels type keywords labels matches)
      typeKeywords [] in
  sort byConfidenceDesc matches.

(** *** analyzeResistor *)

(** The literal  / ( \d+ \.? \d* ) \s* ( [kKmM]? ) ( Ω | ohm | R ) /i
    (spaces added for reading). *)
Definition resistancePattern : regex :=
  seq [ Group 1 (seq [plus digit; opt (chr "."); star digit]);
        star space;
        Group 2 (opt (chr "kKmM"));
        Group 3 (Alt (CharSet [OMEGA]) (Alt (lit (js "ohm")) (chr "R"))) ].

(** The loop over [texts]: the first text the pattern matches sets
    [estimatedValue], and the loop is left. *)
Fixpoint scanResistance (texts : list jsstring) (estimatedValue : option jsstring)
  : option jsstring :=
  match texts with
  | [] => estimatedValue
  | text :: rest =>
      match match_ text resistancePattern with
      | Some m => Some (interp (at_ m 1) ++ interp (at_ m 2) ++ [OMEGA])
      | None => scanResistance rest estimatedValue
      end
  end.

Definition isColorLabel (l : Label.t) : bool :=
  existsb
    (fun color => includes (toLowerCase (Label.Name l)) (toLowerCase color))
    (Constants.keys Constants.ResistorColorCodes).

Definition analyzeResistor (labels : list Label.t)
           (textDetections : list TextDetection.t) : ResistorAnalysis.t :=
  let analysis := ResistorAnalysis.mk false [] None None in
  let colorLabels := filter isColorLabel labels in
  let analysis :=
    if (2 <=? List.length colorLabels)%nat
    then ResistorAnalysis.mk true (map Label.Name colorLabels)
           (ResistorAnalysis.estimatedValue analysis)
           (Some (js "Resistor identified with visible color bands"))
    else analysis in
  let texts := lineTexts textDetections in
  ResistorAnalysis.mk
    (ResistorAnalysis.hasColorBands analysis)
    (ResistorAnalysis.detectedColors analysis)
    (scanResistance texts (ResistorAnalysis.estimatedValue analysis))
    (ResistorAnalysis.note analysis).

(** *** analyzeCapacitor *)

(** The literal  / ( \d+ \.? \d* ) \s* ( [µuμpnm]? F ) /i : the class
    holds the micro sign, u, Greek mu, p, n and m. *)
Definition capacitancePattern : regex :=
  seq [ Group 1 (seq [plus digit; opt (chr "."); star digit]);
        star space;
        Group 2 (Seq (opt (CharSet ([MICRO] ++ js "u" ++ [mu] ++ js "pnm")))
                     (chr "F")) ].

(** The literal  / ( \d+ ) \s* V /i . *)
Definition voltagePattern : regex :=
  seq [ Group 1 (plus digit); star space; chr "V" ].

(** One turn of the loop over [texts]: both patterns are tried, and each
    one that matches overwrites its property. *)
Definition capacitorStep (analysis : CapacitorAnalysis.t) (text : jsstring)
  : CapacitorAnalysis.t :=
  let analysis :=
    match match_ text capacitancePattern with
    | Some capMatch =>
        CapacitorAnalysis.mk
          (Some (interp (at_ capMatch 1) ++ interp (at_ capMatch 2)))
          (CapacitorAnalysis.voltage analysis)
    | None => analysis
    end in
  match match_ text voltagePattern with
  | Some voltMatch =>
      CapacitorAnalysis.mk
        (CapacitorAnalysis.estimatedValue analysis)
        (Some (interp (at_ voltMatch 1) ++ js "V"))
  | None => analysis
  end.

Definition analyzeCapacitor (textDetections : list TextDetection.t)
  : CapacitorAnalysis.t :=
  let analysis := CapacitorAnalysis.mk None None in
  let texts := lineTexts textDetections in
  fold_left capacitorStep texts analysis.

(** *** analyzeIC *)

Definition manufacturerPrefixes : list jsstring :=
  [js "74"; js "CD"; js "LM"; js "TL"; js "NE"; js "MC"; js "SN"; js "AD";
   js "MAX"].

(** The literal  / ^ [A-Z0-9]{4,12} $ /i . *)
Definition partNumberPattern : regex :=
  seq [ Bol; Quant 4 (Some 12) (CharSet (range 65 26 ++ range 48 10)); Eol ].

(** One turn of the loop over [texts]; the prefix test sits inside the
    part-number branch. *)
Definition icStep (analysis : ICAnalysis.t) (text : jsstring) : ICAnalysis.t :=
  if test partNumberPattern (trim text) then
    let partNumbers := ICAnalysis.partNumbers analysis ++ [trim text] in
    let prefix := toUpperCase (substring0 2 text) in
    if existsb (eqs prefix) manufacturerPrefixes
    then ICAnalysis.mk partNumbers
           (ICAnalysis.manufacturers analysis ++
              [js "Likely " ++ prefix ++ js " series"])
    else ICAnalysis.mk partNumbers (ICAnalysis.manufacturers analysis)
  else analysis.

Definition analyzeIC (textDetections : list TextDetection.t) : ICAnalysis.t :=
  let analysis := ICAnalysis.mk [] [] in
  let texts := lineTexts textDetections in
  fold_left icStep texts analysis.

(** *** interpretResults *)

Definition interpretResults (labels : list Label.t)
           (textDetections : list TextDetection.t) : ComponentData.t :=
  let detectedLabels :=
    map (fun l => DetectedLabel.mk (Label.Name l) (Label.Confidence l))
        labels in
  let detectedText :=
    map (fun t => TextLine.mk (TextDetection.DetectedText t)
                              (TextDetection.Confidence t))
        (filter isLine textDetections) in
  let componentTypes := identifyComponentType labels in
  let '(confidence, type, possibleTypes) :=
    match componentTypes with
    | top :: _ =>
        (TypeMatch.confidence top, TypeMatch.type top, componentTypes)
    | [] => (0%Q, js "unknown", [])
    end in
  let analysis :=
    if eqs type (js "resistor") then
      Analysis.mk (Some (analyzeResistor labels textDetections)) None None
    else if eqs type (js "capacitor") then
      Analysis.mk None (Some (analyzeCapacitor textDetections)) None
    else if eqs type (js "integrated_circuit") then
      Analysis.mk None None (Some (analyzeIC textDetections))
    else Analysis.empty in
  ComponentData.mk confidence type possibleTypes detectedLabels detectedText
                   analysis.

(** *** generateIdentificationSummary *)

Definition generateIdentificationSummary (analysisResult : ComponentData.t)
  : jsstring :=
  let type := ComponentData.type analysisResult in
  let confidence := ComponentData.confidence analysisResult in
  let analysis := ComponentData.analysis analysisResult in
  let summary :=
    js "Identified as: " ++ type ++ js " (" ++ toFixed 1 confidence ++
    js "% confidence)" in
  let nl := [10%N] in
  match eqs type (js "resistor"), Analysis.resistor analysis with
  | true, Some r =>
      if truthy (ResistorAnalysis.estimatedValue r) then
        summary ++ nl ++ js "Estimated value: " ++
        interp (ResistorAnalysis.estimatedValue r)
      else if ResistorAnalysis.hasColorBands r then
        summary ++ nl ++ js "Color bands detected: " ++
        join (js ", ") (ResistorAnalysis.detectedColors r)
      else summary
  | _, _ =>
  match eqs type (js "capacitor"), Analysis.capacitor analysis with
  | true, Some c =>
      let summary :=
        if truthy (CapacitorAnalysis.estimatedValue c)
        then summary ++ nl ++ js "Estimated value: " ++
             interp (CapacitorAnalysis.estimatedValue c)
        else summary in
      if truthy (CapacitorAnalysis.voltage c)
      then summary ++ nl ++ js "Rated voltage: " ++
           interp (CapacitorAnalysis.voltage c)
      else summary
  | _, _ =>
  match eqs type (js "integrated_circuit"), Analysis.ic analysis with
  | true, Some i =>
      if (0 <? List.length (ICAnalysis.partNumbers i))%nat
      then summary ++ nl ++ js "Detected part numbers: " ++
           join (js ", ") (ICAnalysis.partNumbers i)
      else summary
  | _, _ => summary
  end end end.

End ComponentAnalyzer.

(* ===================================================================== *)
(** ** Reference definitions, after the specification *)
(* ===================================================================== *)

Module Reference.
Import ComponentAnalyzer.

(** A label matches a type when its lowercased name contains one of the
    type's keywords. *)
Definition labelMatches (keywords : list jsstring) (label : Label.t) : bool :=
  existsb (includes (toLowerCase (Label.Name label))) keywords.

(** The single match of one type: the first label, in input order, that
    matches; later labels are not looked at. *)
Definition typeMatch (entry : jsstring * list jsstring)
           (labels : list Label.t) : list TypeMatch.t :=
  match find (labelMatches (snd entry)) labels with
  | Some label =>
      [ TypeMatch.mk (fst entry) (Label.Confidence label) (Label.Name label) ]
  | None => []
  end.

(** The matches of all types, in the order of the canonical type list,
    before they are ranked. *)
Definition collectedMatches (labels : list Label.t) : list TypeMatch.t :=
  flat_map (fun entry => typeMatch entry labels) typeKeywords.

(** Confidence descending: every element is at least as confident as
    every later one. *)
Definition descending (l : list TypeMatch.t) : Prop :=
  StronglySorted
    (fun a b => (TypeMatch.confidence b <= TypeMatch.confidence a)%Q) l.

(** The matches whose confidence is the number [q]. *)
Definition withConfidence (q : Q) (l : list TypeMatch.t) : list TypeMatch.t :=
  filter (fun m => Qeq_bool (TypeMatch.confidence m) q) l.

(** [r] is [l] sorted by confidence descending, ties in their order in
    [l]. *)
Definition rankedStably (l r : list TypeMatch.t) : Prop :=
  Permutation l r /\ descending r /\
  forall q, withConfidence q r = withConfidence q l.

(** The ten colour names. *)
Definition colorNames : list jsstring :=
  [js "black"; js "brown"; js "red"; js "orange"; js "yellow"; js "green";
   js "blue"; js "violet"; js "grey"; js "white"].

Definition namesColor (l : Label.t) : bool :=
  existsb (includes (toLowerCase (Label.Name l))) colorNames.

(** What a line yields under each pattern of the extractors. *)
Definition resistanceOf (text : jsstring) : option jsstring :=
  match RegExp.match_ text resistancePattern with
  | Some m => Some (interp (RegExp.at_ m 1) ++ interp (RegExp.at_ m 2) ++ [OMEGA])
  | None => None
  end.

Definition capacitanceOf (text : jsstring) : option jsstring :=
  match RegExp.match_ text capacitancePattern with
  | Some m => Some (interp (RegExp.at_ m 1) ++ interp (RegExp.at_ m 2))
  | None => None
  end.

Definition voltageOf (text : jsstring) : option jsstring :=
  match RegExp.match_ text voltagePattern with
  | Some m => Some (interp (RegExp.at_ m 1) ++ js "V")
  | None => None
  end.

(** The first, and the last, line for which [f] yields a value. *)
Fixpoint firstOf (f : jsstring -> option jsstring) (texts : list jsstring)
  : option jsstring :=
  match texts with
  | [] => None
  | t :: rest =>
      match f t with
      | Some v => Some v
      | None => firstOf f rest
      end
  end.

Definition lastOf (f : jsstring -> option jsstring) (texts : list jsstring)
  : option jsstring :=
  firstOf f (rev texts).

(** The part-number test and the prefix test of the IC extractor. *)
Definition isPartNumber (text : jsstring) : bool :=
  RegExp.test partNumberPattern (trim text).

Definition prefixOf (text : jsstring) : jsstring :=
  toUpperCase (substring0 2 text).

Definition hasListedPrefix (text : jsstring) : bool :=
  existsb (eqs (prefixOf text)) manufacturerPrefixes.

Definition advisory (text : jsstring) : jsstring :=
  js "Likely " ++ prefixOf text ++ js " series".

(** ASCII letters and digits. *)
Definition isAlnum (ch : N) : bool :=
  between 48 57 ch || between 65 90 ch || between 97 122 ch.

(** The header line of a summary. *)
Definition header (type : jsstring) (confidence : Q) : jsstring :=
  js "Identified as: " ++ type ++ js " (" ++ toFixed 1 confidence ++
  js "% confidence)".

(** A text detection of granularity LINE, and one of granularity WORD. *)
Definition line (text : jsstring) (confidence : Q) : TextDetection.t :=
  TextDetection.mk text confidence (js "LINE").

Definition word (text : jsstring) (confidence : Q) : TextDetection.t :=
  TextDetection.mk text confidence (js "WORD").

End Reference.

(* ===================================================================== *)
(** ** Vocabulary for the further properties *)
(* ===================================================================== *)

Module Vocabulary.
Import ComponentAnalyzer Reference.

(** The types of the keyword table, in its order. *)
Definition canonicalTypes : list jsstring := map fst typeKeywords.

(** Whether some label carries a keyword of some type. *)
Definition anyKeyword (labels : list Label.t) : bool :=
  existsb (fun entry => existsb (labelMatches (snd entry)) labels) typeKeywords.

Definition isDigit (ch : N) : bool := between 48 57 ch.

(** A decimal number as the value patterns read it: digits, then
    perhaps a point, then perhaps more digits. *)
Definition isNumber (s : jsstring) : Prop :=
  exists int point frac,
    s = int ++ point ++ frac /\ int <> [] /\
    Forall (fun ch => isDigit ch = true) int /\
    (point = [] \/ point = js ".") /\
    Forall (fun ch => isDigit ch = true) frac.

(** [t] occurs in [s]. *)
Definition occursIn (t s : jsstring) : Prop :=
  exists before after, s = before ++ t ++ after.

(** The advisories a two-character prefix can give. *)
Definition advisories : list jsstring :=
  [js "Likely 74 series"; js "Likely CD series"; js "Likely LM series";
   js "Likely TL series"; js "Likely NE series"; js "Likely MC series";
   js "Likely SN series"; js "Likely AD series"].


Definition unitPrefixes : list N :=
  [MICRO; mu; MU] ++ js "uUpPnNmM".

(** A line that begins with white space. *)
Definition startsWithSpace (text : jsstring) : bool :=
  match text with
  | ch :: _ => isWhiteSpace ch
  | [] => false
  end.

(** The lines of a summary after the header. *)
Definition valueLine (v : jsstring) : jsstring :=
  [10%N] ++ js "Estimated value: " ++ v.

Definition colorLine (names : list jsstring) : jsstring :=
  [10%N] ++ js "Color bands detected: " ++ join (js ", ") names.

Definition voltageLine (v : jsstring) : jsstring :=
  [10%N] ++ js "Rated voltage: " ++ v.

Definition partNumbersLine (numbers : list jsstring) : jsstring :=
  [10%N] ++ js "Detected part numbers: " ++ join (js ", ") numbers.

Definition optionalLine (line : jsstring -> jsstring) (v : option jsstring)
  : jsstring :=
  match v with
  | Some s => line s
  | None => []
  end.

End Vocabulary.

(* ===================================================================== *)
(** ** class ComponentAnalyzer: the calls to the vision service *)
(* ===================================================================== *)

(** What a call may do besides returning: throw an [Error] with a
    message. *)
Module Control.

Inductive result (A : Type) : Type :=
| Returns (a : A)
| Throws (message : jsstring).
Arguments Returns {A} a.
Arguments Throws {A} message.

(** A settled promise.  A promise built by [Promise.all] is rejected
    with the reason of the member that is rejected first; which one that
    is depends on when the service answers, so a rejection lists the
    reasons it can have, in the order of the members. *)
Inductive settled (A : Type) : Type :=
| Fulfilled (a : A)
| Rejected (reasons : list jsstring).
Arguments Fulfilled {A} a.
Arguments Rejected {A} reasons.

(** [a || d] for a string or [undefined] [a] and a string [d]. *)
Definition orDefault (a : option jsstring) (d : jsstring) : jsstring :=
  match a with
  | Some (ch :: s) => ch :: s
  | _ => d
  end.

(** [a || b] for strings or [undefined]. *)
Definition orElse (a b : option jsstring) : option jsstring :=
  if truthy a then a else b.

End Control.

Module AnalyzerService.
Import Control ComponentAnalyzer.

(** The [Image] parameter of a request. *)
Inductive Image : Type :=
| S3Object (Bucket Name : jsstring)
| Bytes (bytes : list N).

(** The commands of the service. *)
Inductive Command : Type :=
| DetectLabelsCommand (image : Image) (MinConfidence : Q) (MaxLabels : N)
| DetectTextCommand (image : Image).

(** The result object of a command, as far as it is read. *)
Record Reply : Type := mkReply {
  Labels : option (list Label.t);
  TextDetections : option (list TextDetection.t)
}.

(** [client.send(command)] settles with a result or is rejected. *)
Inductive Response : Type :=
| Resolved (result : Reply)
| Failed (reason : jsstring).

(** The constructor's [config], [{}] by default. *)
Record Config : Type := mkConfig {
  region : option jsstring;
  configMinConfidence : option Q
}.

Record Analyzer : Type := mkAnalyzer {
  client : Command -> Response;
  minConfidence : Q
}.

(** [constructor(config = {})]; [RekognitionClient] makes the client of
    a region, [AWS_REGION] is the environment variable. *)
Definition constructor (RekognitionClient : jsstring -> Command -> Response)
           (AWS_REGION : option jsstring) (config : Config) : Analyzer :=
  mkAnalyzer
    (RekognitionClient
       (orDefault (region config) (orDefault AWS_REGION (js "us-east-1"))))
    (match configMinConfidence config with
     | Some q => if Qeq_bool q 0 then 70%Q else q
     | None => 70%Q
     end).

(** The image source passed in: each property is there or not. *)
Record ImageSource : Type := mkSource {
  bucket : option jsstring;
  key : option jsstring;
  bytes : option (list N)
}.

Definition invalidSource : jsstring :=
  js "Invalid image source. Provide either S3 object or bytes.".

Definition buildImageParam (imageSource : ImageSource) : result Image :=
  if truthy (bucket imageSource) && truthy (key imageSource) then
    Returns (S3Object (interp (bucket imageSource)) (interp (key imageSource)))
  else
    match bytes imageSource with
    | Some b => Returns (Bytes b)
    | None => Throws invalidSource
    end.

(** [result.Labels || []] *)
Definition orEmpty (A : Type) (l : option (list A)) : list A :=
  match l with
  | Some l => l
  | None => []
  end.

(** An asynchronous method gives the commands it has sent and the
    promise it returns, settled. *)
Definition detectLabels (a : Analyzer) (imageSource : ImageSource)
  : list Command * settled (list Label.t) :=
  match buildImageParam imageSource with
  | Throws e => ([], Rejected [e])
  | Returns image =>
      let command := DetectLabelsCommand image (minConfidence a) 20 in
      ([command],
       match client a command with
       | Resolved result => Fulfilled (orEmpty (Labels result))
       | Failed e => Rejected [e]
       end)
  end.

Definition detectText (a : Analyzer) (imageSource : ImageSource)
  : list Command * settled (list TextDetection.t) :=
  match buildImageParam imageSource with
  | Throws e => ([], Rejected [e])
  | Returns image =>
      let command := DetectTextCommand image in
      ([command],
       match client a command with
       | Resolved result => Fulfilled (orEmpty (TextDetections result))
       | Failed e => Rejected [e]
       end)
  end.

(** [analyzeComponent]: both detections are started, then awaited
    together. *)
Definition analyzeComponent (a : Analyzer) (imageSource : ImageSource)
  : list Command * settled ComponentData.t :=
  let '(sent1, labels) := detectLabels a imageSource in
  let '(sent2, text) := detectText a imageSource in
  (sent1 ++ sent2,
   match labels, text with
   | Fulfilled labels, Fulfilled text =>
       Fulfilled (interpretResults labels text)
   | Rejected e1, Fulfilled _ => Rejected e1
   | Fulfilled _, Rejected e2 => Rejected e2
   | Rejected e1, Rejected e2 => Rejected (e1 ++ e2)
   end).

End AnalyzerService.

(* ===================================================================== *)
(** ** class CognitoAuth *)
(* ===================================================================== *)

Module CognitoAuth.
Import Control.

(** The headers of an API Gateway event, as far as they are read. *)
Record Headers : Type := mkHeaders {
  Authorization : option jsstring;
  authorization : option jsstring
}.

(** An event; [headers] may be missing. *)
Record Event : Type := mkEvent {
  headers : option Headers
}.

(** [event.headers?.Authorization || event.headers?.authorization] *)
Definition authHeaderOf (event : Event) : option jsstring :=
  match headers event with
  | Some h => orElse (Authorization h) (authorization h)
  | None => None
  end.

Definition extractTokenFromEvent (event : Event) : result jsstring :=
  let authHeader := authHeaderOf event in
  if negb (truthy authHeader) then
    Throws (js "No authorization header found")
  else if startsWith (js "Bearer ") (interp authHeader) then
    Returns (skipn 7 (interp authHeader))
  else Returns (interp authHeader).

(** The claims of a token payload that are read, each there or not,
    with the types the token format gives them. *)
Record Payload : Type := mkPayload {
  sub : option jsstring;
  cognito_username : option jsstring;       (* payload['cognito:username'] *)
  email : option jsstring;
  exp : option Q
}.

(** What decoding a token comes to.  The decoding itself ([Buffer],
    [decodeURIComponent], [JSON.parse]) is left to the runtime: it fails,
    or gives [null], or gives a value whose properties can be read (for a
    number, a string or a boolean every claim is missing). *)
Inductive Decoded : Type :=
| Malformed
| Null
| Value (payload : Payload).

(** The context [getUserContext] returns. *)
Record UserContext : Type := mkContext {
  userId : option jsstring;
  contextEmail : option jsstring;
  token : jsstring
}.

Section Runtime.

(** The runtime's decoding of a token, the message of the [TypeError]
    it raises on reading a property of [null], and [Date.now()]. *)
Variable decode : jsstring -> Decoded.
Variable nullPropertyMessage : jsstring.
Variable now : Z.

(** [parseToken]: whatever fails inside is rethrown as the one error;
    [None] is the payload [null]. *)
Definition parseToken (token : jsstring) : result (option Payload) :=
  match decode token with
  | Malformed => Throws (js "Invalid token format")
  | Null => Returns None
  | Value payload => Returns (Some payload)
  end.

Definition getUserIdFromToken (token : jsstring) : result (option jsstring) :=
  match parseToken token with
  | Throws e => Throws e
  | Returns None => Throws nullPropertyMessage
  | Returns (Some payload) =>
      Returns (orElse (sub payload) (cognito_username payload))
  end.

Definition getEmailFromToken (token : jsstring) : result (option jsstring) :=
  match parseToken token with
  | Throws e => Throws e
  | Returns None => Throws nullPropertyMessage
  | Returns (Some payload) => Returns (email payload)
  end.

(** [isTokenExpired]: [payload.exp < currentTime], where a missing [exp]
    compares false; any error inside counts as expired. *)
Definition isTokenExpired (token : jsstring) : bool :=
  match parseToken token with
  | Throws _ => true
  | Returns None => true
  | Returns (Some payload) =>
      let currentTime := (now / 1000)%Z in
      match exp payload with
      | Some e => negb (Qle_bool (inject_Z currentTime) e)
      | None => false
      end
  end.

Definition authenticationFailed (message : jsstring) : jsstring :=
  js "Authentication failed: " ++ message.

Definition getUserContext (event : Event) : result UserContext :=
  match extractTokenFromEvent event with
  | Throws e => Throws (authenticationFailed e)
  | Returns token =>
      if isTokenExpired token then
        Throws (authenticationFailed (js "Token expired"))
      else
        match getUserIdFromToken token with
        | Throws e => Throws (authenticationFailed e)
        | Returns userId =>
            match getEmailFromToken token with
            | Throws e => Throws (authenticationFailed e)
            | Returns email => Returns (mkContext userId email token)
            end
        end
  end.

End Runtime.

End CognitoAuth.

(* ===================================================================== *)
(** ** class ComponentDatabase *)
(* ===================================================================== *)

(** Values and objects.  An object is the list of its properties in the
    order of their creation; assigning to a property that is there
    replaces its value in place.  (The language lists properties whose
    names are array indices before the others; nothing below depends on
    where such a property stands.) *)
Module Objects.

Local Set Warnings "-register-all".

Inductive value : Type :=
| VStr (s : jsstring)
| VNum (q : Q)
| VBool (b : bool)
| VNull
| VList (items : list value)
| VObj (properties : list (jsstring * value)).

Definition object : Type := list (jsstring * value).

(** [o[k]]; [None] is [undefined]. *)
Fixpoint get (k : jsstring) (o : object) : option value :=
  match o with
  | [] => None
  | (k', v) :: o' => if eqs k k' then Some v else get k o'
  end.

(** [o[k] = v] *)
Fixpoint assign (k : jsstring) (v : value) (o : object) : object :=
  match o with
  | [] => [(k, v)]
  | (k', v') :: o' =>
      if eqs k k' then (k, v) :: o' else (k', v') :: assign k v o'
  end.

(** [{ ...target, ...source }] *)
Definition spread (target source : object) : object :=
  fold_left (fun o property => assign (fst property) (snd property) o)
            source target.

(** Truthiness of a value or [undefined]. *)
Definition truthyValue (v : option value) : bool :=
  match v with
  | None | Some VNull => false
  | Some (VStr s) => truthy (Some s)
  | Some (VNum q) => negb (Qeq_bool q 0)
  | Some (VBool b) => b
  | Some (VList _) | Some (VObj _) => true
  end.

End Objects.

Module ComponentDatabase.
Import Control Objects.

(** The parameters of a query. *)
Record QueryParams : Type := mkQuery {
  QTableName : jsstring;
  KeyConditionExpression : jsstring;
  ExpressionAttributeValues : object;
  FilterExpression : option jsstring
}.

(** The parameters of an update. *)
Record UpdateParams : Type := mkUpdate {
  UTableName : jsstring;
  Key : object;
  UpdateExpression : jsstring;
  UExpressionAttributeNames : object;
  UExpressionAttributeValues : object;
  ReturnValues : jsstring
}.

Inductive Command : Type :=
| PutCommand (TableName : jsstring) (Item : object)
| QueryCommand (params : QueryParams)
| UpdateCommand (params : UpdateParams).

(** The result object of a command, as far as it is read. *)
Record Result : Type := mkResult {
  Items : option (list object);
  Attributes : option object
}.

Inductive Response : Type :=
| Resolved (result : Result)
| Failed (reason : jsstring).

Record Config : Type := mkConfig {
  region : option jsstring;
  configTableName : option jsstring
}.

Record Database : Type := mkDatabase {
  docClient : Command -> Response;
  tableName : jsstring
}.

(** [constructor(config = {})]; [DynamoDBClient] makes the document
    client of a region, the other two are environment variables. *)
Definition constructor (DynamoDBClient : jsstring -> Command -> Response)
           (AWS_REGION COMPONENTS_TABLE : option jsstring) (config : Config)
  : Database :=
  mkDatabase
    (DynamoDBClient
       (orDefault (region config) (orDefault AWS_REGION (js "us-east-1"))))
    (orDefault (configTableName config)
       (orDefault COMPONENTS_TABLE (js "CircuitStreamComponents"))).

(** [createComponent]; [timestamp] is [new Date().toISOString()], [now]
    is [Date.now()], a count of milliseconds that is not negative, and
    [random] is [Math.random().toString(36).substr(2, 9)]. *)
Definition createComponent (db : Database) (timestamp : jsstring) (now : Z)
           (random : jsstring) (userId : value) (component : object)
  : list Command * settled object :=
  let componentId := decimal now ++ js "_" ++ random in
  let quantity :=
    if truthyValue (get (js "quantity") component)
    then match get (js "quantity") component with
         | Some q => q
         | None => VNum 0
         end
    else VNum 0 in
  let item :=
    assign (js "stockHistory")
      (VList [VObj [(js "date", VStr timestamp);
                    (js "quantity", quantity);
                    (js "action", VStr (js "initial"))]])
      (assign (js "updatedAt") (VStr timestamp)
         (assign (js "createdAt") (VStr timestamp)
            (spread [(js "componentId", VStr componentId);
                     (js "userId", userId)]
                    component))) in
  let command := PutCommand (tableName db) item in
  ([command],
   match docClient db command with
   | Resolved _ => Fulfilled item
   | Failed e => Rejected [e]
   end).

(** The [filters] of [getUserComponents], [{}] by default; [lowStock]
    is only tested for being there. *)
Record Filters : Type := mkFilters {
  type : option jsstring;
  lowStock : option value;
  threshold : option Q
}.

Definition noFilters : Filters := mkFilters None None None.

Definition getUserComponents (db : Database) (userId : value)
           (filters : Filters) : list Command * settled (list object) :=
  let values := [(js ":userId", userId)] in
  let '(filter, values) :=
    if truthy (type filters)
    then (Some (js "componentType = :type"),
          values ++ [(js ":type", VStr (interp (type filters)))])
    else (None, values) in
  let '(filter, values) :=
    match lowStock filters, threshold filters with
    | Some _, Some q =>
        if Qeq_bool q 0 then (filter, values)
        else
          (Some (match filter with
                 | Some f => f ++ js " AND quantity <= :threshold"
                 | None => js "quantity <= :threshold"
                 end),
           values ++ [(js ":threshold", VNum q)])
    | _, _ => (filter, values)
    end in
  let command :=
    QueryCommand (mkQuery (tableName db) (js "userId = :userId") values
                          filter) in
  ([command],
   match docClient db command with
   | Resolved result =>
       Fulfilled (match Items result with Some l => l | None => [] end)
   | Failed e => Rejected [e]
   end).

(** [getLowStockComponents(userId, threshold = 10)] *)
Definition getLowStockComponents (db : Database) (userId : value)
           (threshold : option Q) : list Command * settled (list object) :=
  let threshold := match threshold with Some q => q | None => 10%Q end in
  getUserComponents db userId
    (mkFilters None (Some (VBool true)) (Some threshold)).



End ComponentDatabase.

Module DatabaseVocabulary.
Import Objects ComponentDatabase.

(** The expressions of a query, one after the other. *)
Definition expressions (params : QueryParams) : jsstring :=
  KeyConditionExpression params ++ js " " ++
  match FilterExpression params with
  | Some f => f
  | None => []
  end.

(** The placeholders a query can use. *)
Definition queryPlaceholders : list jsstring :=
  [js ":userId"; js ":type"; js ":threshold"].



End DatabaseVocabulary.

(* ===================================================================== *)
(** ** class StockAlerts *)
(* ===================================================================== *)

Module StockAlerts.
Import Control.

(** A component, as far as the alerts read it. *)
Record Component : Type := mkComponent {
  componentId : option jsstring;
  name : option jsstring;
  partNumber : option jsstring;
  componentType : option jsstring;
  location : option jsstring;
  quantity : option Q
}.

(** A message attribute: [{ DataType, StringValue }]. *)
Record Attribute : Type := mkAttribute {
  DataType : jsstring;
  StringValue : jsstring
}.

Record PublishParams : Type := mkPublish {
  TopicArn : option jsstring;
  Message : jsstring;
  Subject : jsstring;
  MessageAttributes : list (jsstring * Attribute)
}.

Inductive Command : Type :=
| PublishCommand (params : PublishParams).

(** [client.send(command)] settles with a result, of which [MessageId]
    is read, or is rejected. *)
Inductive Response : Type :=
| Resolved (MessageId : option jsstring)
| Failed (reason : jsstring).

Record Alerts : Type := mkAlerts {
  client : Command -> Response;
  topicArn : option jsstring
}.

Record Config : Type := mkConfig {
  region : option jsstring;
  configTopicArn : option jsstring
}.

(** [constructor(config = {})] *)
Definition constructor (SNSClient : jsstring -> Command -> Response)
           (AWS_REGION SNS_TOPIC_ARN : option jsstring) (config : Config)
  : Alerts :=
  mkAlerts
    (SNSClient
       (orDefault (region config) (orDefault AWS_REGION (js "us-east-1"))))
    (orElse (configTopicArn config) SNS_TOPIC_ARN).

(** What an alert method resolves to: the result of a publication, or
    [{ alerted: false }]. *)
Inductive Outcome : Type :=
| Published (messageId : option jsstring)      (* { messageId, success: true } *)
| NotAlerted.

(** The thresholds of [checkAndAlert]; a missing one compares false. *)
Record Thresholds : Type := mkThresholds {
  critical : option Q;
  low : option Q
}.

Definition defaultThresholds : Thresholds :=
  mkThresholds (Some 5%Q) (Some 10%Q).

Section Runtime.

(** The runtime's conversion of a number other than 0 to a string. *)
Variable numberToString : Q -> jsstring.

Definition nl : jsstring := [10%N].

(** [${component.quantity || 0}] *)
Definition stockOf (component : Component) : jsstring :=
  match quantity component with
  | Some q => if Qeq_bool q 0 then js "0" else numberToString q
  | None => js "0"
  end.

(** [${threshold}] *)
Definition thresholdText (threshold : option Q) : jsstring :=
  match threshold with
  | Some q => if Qeq_bool q 0 then js "0" else numberToString q
  | None => js "undefined"
  end.

Definition describe (component : Component) (stock : jsstring) : jsstring :=
  js "Component: " ++ orDefault (name component) (js "Unnamed Component") ++
  nl ++
  js "Part Number: " ++ orDefault (partNumber component) (js "N/A") ++ nl ++
  js "Type: " ++ orDefault (componentType component) (js "Unknown") ++ nl ++
  js "Current Stock: " ++ stock ++ nl ++
  js "Location: " ++ orDefault (location component) (js "Not specified") ++
  nl.

Definition signature : jsstring :=
  nl ++ js "---" ++ nl ++ js "CircuitStream Component Inventory Manager" ++
  nl ++ js "    ".

Definition formatLowStockMessage (component : Component) : jsstring :=
  trim
    (nl ++ js "Low Stock Alert - CircuitStream" ++ nl ++ nl ++
     describe component (stockOf component ++ js " units") ++ nl ++
     js "Your component stock is running low. Consider reordering soon." ++
     nl ++ signature).

Definition formatOutOfStockMessage (component : Component) : jsstring :=
  trim
    (nl ++ js "Out of Stock Alert - CircuitStream" ++ nl ++ nl ++
     describe component (js "0 units") ++ nl ++
     js "This component is now out of stock. Immediate reorder recommended." ++
     nl ++ signature).

Definition formatCriticalStockMessage (component : Component)
           (threshold : option Q) : jsstring :=
  trim
    (nl ++ js "Critical Stock Alert - CircuitStream" ++ nl ++ nl ++
     describe component
       (stockOf component ++ js " units (Critical threshold: " ++
        thresholdText threshold ++ js ")") ++ nl ++
     js "CRITICAL: Stock level has reached critical threshold. Immediate action required." ++
     nl ++ signature).

(** [publishMessage]: the attributes are given as the entries of the
    object, each value a string or [undefined]. *)
Definition publishMessage (alerts : Alerts) (message subject : jsstring)
           (attributes : list (jsstring * option jsstring))
  : list Command * settled Outcome :=
  let params :=
    mkPublish (topicArn alerts) message subject
      (map (fun entry =>
              (fst entry, mkAttribute (js "String") (interp (snd entry))))
           attributes) in
  let command := PublishCommand params in
  ([command],
   match client alerts command with
   | Resolved messageId => Fulfilled (Published messageId)
   | Failed e => Rejected [e]
   end).

(** [${component.name || component.partNumber}] *)
Definition titleOf (component : Component) : jsstring :=
  interp (orElse (name component) (partNumber component)).

Definition sendLowStockAlert (alerts : Alerts) (component : Component)
           (userEmail : option jsstring) : list Command * settled Outcome :=
  publishMessage alerts (formatLowStockMessage component)
    ([0x26A0%N; 0xFE0F%N] ++ js " Low Stock Alert: " ++ titleOf component)
    [(js "componentId", componentId component);
     (js "alertType", Some (js "low_stock"));
     (js "userEmail", userEmail)].

Definition sendOutOfStockAlert (alerts : Alerts) (component : Component)
           (userEmail : option jsstring) : list Command * settled Outcome :=
  publishMessage alerts (formatOutOfStockMessage component)
    ([0xD83D%N; 0xDD34%N] ++ js " Out of Stock: " ++ titleOf component)
    [(js "componentId", componentId component);
     (js "alertType", Some (js "out_of_stock"));
     (js "userEmail", userEmail)].

Definition sendCriticalStockAlert (alerts : Alerts) (component : Component)
           (userEmail : option jsstring) (threshold : option Q)
  : list Command * settled Outcome :=
  publishMessage alerts (formatCriticalStockMessage component threshold)
    ([0xD83D%N; 0xDEA8%N] ++ js " Critical Stock Level: " ++
     titleOf component)
    [(js "componentId", componentId component);
     (js "alertType", Some (js "critical_stock"));
     (js "userEmail", userEmail)].

(** [quantity <= threshold], false for a missing threshold. *)
Definition atMost (quantity : Q) (threshold : option Q) : bool :=
  match threshold with
  | Some t => Qle_bool quantity t
  | None => false
  end.

(** [checkAndAlert(component, userEmail, thresholds = { critical: 5,
    low: 10 })] *)
Definition checkAndAlert (alerts : Alerts) (component : Component)
           (userEmail : option jsstring) (thresholds : option Thresholds)
  : list Command * settled Outcome :=
  let thresholds :=
    match thresholds with
    | Some t => t
    | None => defaultThresholds
    end in
  let quantity :=
    match quantity component with
    | Some q => if Qeq_bool q 0 then 0%Q else q
    | None => 0%Q
    end in
  if Qeq_bool quantity 0 then
    sendOutOfStockAlert alerts component userEmail
  else if atMost quantity (critical thresholds) then
    sendCriticalStockAlert alerts component userEmail (critical thresholds)
  else if atMost quantity (low thresholds) then
    sendLowStockAlert alerts component userEmail
  else ([], Fulfilled NotAlerted).

End Runtime.

End StockAlerts.

Module AlertVocabulary.
Import Control StockAlerts.

(** The alert type [checkAndAlert] decides on, if any. *)
Definition alertType (component : Component) (thresholds : option Thresholds)
  : option jsstring :=
  let t := match thresholds with Some t => t | None => defaultThresholds end in
  let q := match quantity component with Some q => q | None => 0%Q end in
  if Qeq_bool q 0 then Some (js "out_of_stock")
  else if atMost q (critical t) then Some (js "critical_stock")
  else if atMost q (low t) then Some (js "low_stock")
  else None.

(** The three attributes of an alert. *)
Definition alertAttributes (component : Component)
           (userEmail : option jsstring) (kind : jsstring)
  : list (jsstring * Attribute) :=
  [(js "componentId",
    mkAttribute (js "String") (interp (componentId component)));
   (js "alertType", mkAttribute (js "String") kind);
   (js "userEmail", mkAttribute (js "String") (interp userEmail))].

(** The last line of every message. *)
Definition signatureLine : jsstring :=
  js "CircuitStream Component Inventory Manager".

End AlertVocabulary.

(* ===================================================================== *)
(** ** The quantifier never runs out of fuel *)
(* ===================================================================== *)

Section MatcherFuel.
Import RegExp.

Lemma repeatMatcher_step (m : matcherOf) (fuel min : nat) (max : option nat)
      (x : jsstring) (c : captures) (k : continuation) :
  repeatMatcher m (S fuel) min max x c k =
  match max with
  | Some O => k x c
  | _ =>
      match min with
      | S _ =>
          m x c (fun y c' =>
            if (min =? 0)%nat && (List.length y =? List.length x)%nat
            then None
            else repeatMatcher m fuel (pred min) (pred_max max) y c' k)
      | O =>
          match
            m x c (fun y c' =>
              if (min =? 0)%nat && (List.length y =? List.length x)%nat
              then None
              else repeatMatcher m fuel (pred min) (pred_max max) y c' k)
          with
          | Some z => Some z
          | None => k x c
          end
      end
  end.
Proof. destruct max as [[|n]|]; destruct min; reflexivity. Qed.

Lemma repeatMatcher_advancing (m : matcherOf) :
  advancing m ->
  forall (fuel min : nat) (max : option nat),
    advancing (repeatMatcher m fuel min max).
Proof.
  intros Hm fuel. induction fuel as [|fuel IH]; intros min max x c k1 k2 Hk.
  - reflexivity.
  - rewrite !repeatMatcher_step.
    assert (Hd : forall (y : jsstring) (c' : captures),
       List.length y <= List.length x ->
       (if (min =? 0)%nat && (List.length y =? List.length x)%nat
        then None
        else repeatMatcher m fuel (pred min) (pred_max max) y c' k1) =
       (if (min =? 0)%nat && (List.length y =? List.length x)%nat
        then None
        else repeatMatcher m fuel (pred min) (pred_max max) y c' k2)).
    { intros y c' Hy.
      destruct ((min =? 0)%nat && (List.length y =? List.length x)%nat);
        [reflexivity|].
      apply IH. intros y' c'' Hy'. apply Hk. lia. }
    destruct max as [[|n]|]; try (apply Hk; lia);
      destruct min; try (apply Hm; exact Hd);
      rewrite (Hk x c (le_n _));
      match goal with
      | |- match ?a with _ => _ end = match ?b with _ => _ end =>
          replace a with b by (symmetry; apply Hm; exact Hd)
      end; reflexivity.
Qed.

Lemma matcher_advancing (whole : jsstring) (r : regex) :
  advancing (matcher whole r).
Proof.
  induction r as [|members|r1 IH1 r2 IH2|r1 IH1 r2 IH2|min max r1 IH1
                  |i r1 IH1| |]; intros x c k1 k2 Hk; simpl.
  - apply Hk. lia.
  - destruct x as [|ch x']; [reflexivity|].
    destruct (accepts members ch); [|reflexivity].
    apply Hk. simpl. lia.
  - apply IH1. intros y c' Hy. apply IH2.
    intros y' c'' Hy'. apply Hk. lia.
  - rewrite (IH1 x c k1 k2 Hk), (IH2 x c k1 k2 Hk). reflexivity.
  - now apply repeatMatcher_advancing.
  - apply IH1. intros y c' Hy. now apply Hk.
  - destruct (List.length x =? List.length whole)%nat; [|reflexivity].
    apply Hk. lia.
  - destruct x; [|reflexivity]. apply Hk. lia.
Qed.

(** Any two amounts of fuel above [min + length x] give the same result. *)
Lemma repeatMatcher_fuel (m : matcherOf) :
  advancing m ->
  forall (fuel1 fuel2 min : nat) (max : option nat) (x : jsstring)
         (c : captures) (k : continuation),
    min + List.length x < fuel1 -> min + List.length x < fuel2 ->
    repeatMatcher m fuel1 min max x c k = repeatMatcher m fuel2 min max x c k.
Proof.
  intros Hm fuel1.
  induction fuel1 as [|fuel1 IH]; intros fuel2 min max x c k H1 H2; [lia|].
  destruct fuel2 as [|fuel2]; [lia|]. rewrite !repeatMatcher_step.
  assert (Hd : forall (y : jsstring) (c' : captures),
       List.length y <= List.length x ->
     (if (min =? 0)%nat && (List.length y =? List.length x)%nat
      then None
      else repeatMatcher m fuel1 (pred min) (pred_max max) y c' k) =
     (if (min =? 0)%nat && (List.length y =? List.length x)%nat
      then None
      else repeatMatcher m fuel2 (pred min) (pred_max max) y c' k)).
  { intros y c' Hy.
    destruct (min =? 0)%nat eqn:Emin;
      destruct (List.length y =? List.length x)%nat eqn:Elen; simpl;
      try reflexivity.
    - apply Nat.eqb_eq in Emin. apply Nat.eqb_neq in Elen.
      apply IH; lia.
    - apply Nat.eqb_neq in Emin. apply IH; lia.
    - apply Nat.eqb_neq in Emin. apply IH; lia. }
  destruct max as [[|n]|]; try reflexivity;
    destruct min; try (apply Hm; exact Hd);
    match goal with
    | |- match ?a with _ => _ end = match ?b with _ => _ end =>
        replace a with b by (symmetry; apply Hm; exact Hd)
    end; reflexivity.
Qed.

(** The fuel the matcher gives a quantifier is enough: more changes
    nothing. *)
Lemma quantifier_fuel (whole : jsstring) (r : regex) (min : nat)
      (max : option nat) (x : jsstring) (c : captures) (k : continuation)
      (fuel : nat) :
  min + List.length x < fuel ->
  repeatMatcher (matcher whole r) fuel min max x c k =
  matcher whole (Quant min max r) x c k.
Proof.
  intro H. simpl. apply repeatMatcher_fuel; [apply matcher_advancing| |]; lia.
Qed.

End MatcherFuel.

(* ===================================================================== *)
(** ** What a successful match tells *)
(* ===================================================================== *)

Section MatcherSound.
Import RegExp.

Lemma repeatMatcher_sound (whole : jsstring) (r : regex) (m : matcherOf) :
  (forall x c k z, m x c k = Some z ->
     exists y c', derives whole r x c y c' /\ k y c' = Some z) ->
  forall (fuel min : nat) (max : option nat) (x : jsstring) (c : captures)
         (k : continuation) (z : jsstring * captures),
    repeatMatcher m fuel min max x c k = Some z ->
    exists y c', derives whole (Quant min max r) x c y c' /\ k y c' = Some z.
Proof.
  intros Hm fuel.
  induction fuel as [|fuel IH]; intros min max x c k z H; [discriminate|].
  rewrite repeatMatcher_step in H.
  assert (Hiter : forall d : continuation,
    max <> Some O ->
    (forall y c1, d y c1 = Some z ->
       repeatMatcher m fuel (pred min) (pred_max max) y c1 k = Some z) ->
    m x c d = Some z ->
    exists y c', derives whole (Quant min max r) x c y c' /\ k y c' = Some z).
  { intros d Hmax Hd Hmd.
    destruct (Hm _ _ _ _ Hmd) as (y & c1 & Hr & Hdy).
    destruct (IH _ _ _ _ _ _ (Hd _ _ Hdy)) as (y' & c' & Hq & Hk).
    exists y', c'. split; [|exact Hk].
    eapply D_QuantIter; eassumption. }
  assert (Hstop : min = O \/ max = Some O -> k x c = Some z ->
    exists y c', derives whole (Quant min max r) x c y c' /\ k y c' = Some z).
  { intros Hc Hk. exists x, c. split; [now apply D_QuantStop | exact Hk]. }
  destruct max as [[|n]|].
  - apply Hstop; [now right | exact H].
  - destruct min as [|min'].
    + match type of H with
      | match ?a with _ => _ end = _ => destruct a as [z'|] eqn:E
      end.
      * inversion H; subst z'. eapply Hiter; [discriminate| |exact E].
        intros y c1. simpl.
        destruct (List.length y =? List.length x)%nat; [discriminate|auto].
      * apply Hstop; [now left | exact H].
    + eapply Hiter; [discriminate| |exact H]. intros y c1. simpl. auto.
  - destruct min as [|min'].
    + match type of H with
      | match ?a with _ => _ end = _ => destruct a as [z'|] eqn:E
      end.
      * inversion H; subst z'. eapply Hiter; [discriminate| |exact E].
        intros y c1. simpl.
        destruct (List.length y =? List.length x)%nat; [discriminate|auto].
      * apply Hstop; [now left | exact H].
    + eapply Hiter; [discriminate| |exact H]. intros y c1. simpl. auto.
Qed.

Lemma matcher_sound (whole : jsstring) (r : regex) :
  forall (x : jsstring) (c : captures) (k : continuation)
         (z : jsstring * captures),
    matcher whole r x c k = Some z ->
    exists y c', derives whole r x c y c' /\ k y c' = Some z.
Proof.
  induction r as [|members|r1 IH1 r2 IH2|r1 IH1 r2 IH2|min max r1 IH1
                  |i r1 IH1| |]; intros x c k z H; simpl in H.
  - exists x, c. split; [constructor | exact H].
  - destruct x as [|ch x']; [discriminate|].
    destruct (accepts members ch) eqn:E; [|discriminate].
    exists x', c. split; [now constructor | exact H].
  - destruct (IH1 _ _ _ _ H) as (y & c1 & H1 & H').
    destruct (IH2 _ _ _ _ H') as (y' & c2 & H2 & Hk).
    exists y', c2. split; [econstructor; eassumption | exact Hk].
  - destruct (matcher whole r1 x c k) as [z'|] eqn:E.
    + inversion H; subst z'.
      destruct (IH1 _ _ _ _ E) as (y & c' & H1 & Hk).
      exists y, c'. split; [now apply D_Alt1 | exact Hk].
    + destruct (IH2 _ _ _ _ H) as (y & c' & H2 & Hk).
      exists y, c'. split; [now apply D_Alt2 | exact Hk].
  - eapply repeatMatcher_sound; eassumption.
  - destruct (IH1 _ _ _ _ H) as (y & c' & H1 & Hk).
    eexists _, _. split; [apply D_Group; exact H1 | exact Hk].
  - destruct (List.length x =? List.length whole)%nat eqn:E; [|discriminate].
    apply Nat.eqb_eq in E.
    exists x, c. split; [now constructor | exact H].
  - destruct x; [|discriminate].
    exists [], c. split; [constructor | exact H].
Qed.

(** A match is found at some index of the input, and is one the pattern
    derives from there with no capture set. *)
Lemma execFrom_sound (whole : jsstring) (r : regex) (x : jsstring)
      (m : MatchResult) :
  execFrom whole r x = Some m ->
  exists skipped x' y,
    x = skipped ++ x' /\ derives whole r x' [] y (groups m) /\
    matched m = firstn (List.length x' - List.length y) x'.
Proof.
  induction x as [|ch x IH]; simpl.
  - destruct (matcher whole r [] [] (fun y c => Some (y, c)))
      as [[y c]|] eqn:E; [|discriminate].
    intro H. inversion H; subst m. clear H.
    destruct (matcher_sound _ _ _ _ _ E) as (y' & c' & Hd & Hk).
    inversion Hk; subst y' c'.
    exists [], [], y. repeat split; assumption.
  - destruct (matcher whole r (ch :: x) [] (fun y c => Some (y, c)))
      as [[y c]|] eqn:E.
    + intro H. inversion H; subst m. clear H.
      destruct (matcher_sound _ _ _ _ _ E) as (y' & c' & Hd & Hk).
      inversion Hk; subst y' c'.
      exists [], (ch :: x), y. repeat split; assumption.
    + intro H. destruct (IH H) as (skipped & x' & y & -> & Hd & Hm).
      exists (ch :: skipped), x', y. repeat split; assumption.
Qed.

Lemma derives_groupless (whole : jsstring) (r : regex) (x y : jsstring)
      (c c' : captures) :
  derives whole r x c y c' -> groupless r = true -> c' = c.
Proof.
  induction 1; simpl; intro G; try reflexivity;
    try (apply andb_prop in G; destruct G as [G1 G2]); try discriminate.
  - rewrite IHderives2, IHderives1; auto.
  - auto.
  - auto.
  - rewrite IHderives2, IHderives1; auto.
Qed.

(** A match consumes a prefix of what was ahead. *)
Lemma derives_suffix (whole : jsstring) (r : regex) (x y : jsstring)
      (c c' : captures) :
  derives whole r x c y c' -> exists consumed, x = consumed ++ y.
Proof.
  induction 1; try (now exists []).
  - now exists [ch].
  - destruct IHderives1 as [p1 ->]. destruct IHderives2 as [p2 ->].
    exists (p1 ++ p2). now rewrite app_assoc.
  - assumption.
  - assumption.
  - assumption.
  - destruct IHderives1 as [p1 ->]. destruct IHderives2 as [p2 ->].
    exists (p1 ++ p2). now rewrite app_assoc.
Qed.

End MatcherSound.

(* ===================================================================== *)
(** ** The captures of the three value patterns are always set *)
(* ===================================================================== *)

Section PatternCaptures.
Import RegExp ComponentAnalyzer Reference.

Ltac invert H := inversion H; subst; clear H.

(** Take a derivation of a sequence of groups apart; a part without
    groups leaves the captures as they were. *)
Ltac split_derivation :=
  repeat match goal with
  | H : derives _ ?r _ _ _ _ |- _ =>
      let g := eval vm_compute in (groupless r) in
      match g with
      | true => apply derives_groupless in H; [subst | reflexivity]
      end
  | H : derives _ (Seq _ _) _ _ _ _ |- _ => invert H
  | H : derives _ (Group _ _) _ _ _ _ |- _ => invert H
  end.

Lemma resistancePattern_groups (text : jsstring) (m : MatchResult) :
  match_ text resistancePattern = Some m ->
  exists number multiplier unit,
    groups m = [(3, unit); (2, multiplier); (1, number)].
Proof.
  intro H. apply execFrom_sound in H.
  destruct H as (skipped & x & y & _ & Hd & _).
  unfold resistancePattern, seq in Hd.
  split_derivation. eexists _, _, _. reflexivity.
Qed.

Lemma capacitancePattern_groups (text : jsstring) (m : MatchResult) :
  match_ text capacitancePattern = Some m ->
  exists number unit, groups m = [(2, unit); (1, number)].
Proof.
  intro H. apply execFrom_sound in H.
  destruct H as (skipped & x & y & _ & Hd & _).
  unfold capacitancePattern, seq in Hd.
  split_derivation. eexists _, _. reflexivity.
Qed.

Lemma voltagePattern_groups (text : jsstring) (m : MatchResult) :
  match_ text voltagePattern = Some m ->
  exists number, groups m = [(1, number)].
Proof.
  intro H. apply execFrom_sound in H.
  destruct H as (skipped & x & y & _ & Hd & _).
  unfold voltagePattern, seq in Hd.
  split_derivation. eexists. reflexivity.
Qed.

(** So no interpolation of the extractors ever prints "undefined". *)
Lemma resistanceOf_defined (text v : jsstring) :
  resistanceOf text = Some v ->
  exists m number multiplier,
    match_ text resistancePattern = Some m /\
    at_ m 1 = Some number /\ at_ m 2 = Some multiplier /\
    v = number ++ multiplier ++ [OMEGA].
Proof.
  unfold resistanceOf.
  destruct (match_ text resistancePattern) as [m|] eqn:E; [|discriminate].
  intro H. inversion H; subst v. clear H.
  destruct (resistancePattern_groups _ E) as (number & multiplier & unit & G).
  exists m, number, multiplier. unfold at_. rewrite G. simpl.
  repeat split; reflexivity.
Qed.

Lemma capacitanceOf_defined (text v : jsstring) :
  capacitanceOf text = Some v ->
  exists m number unit,
    match_ text capacitancePattern = Some m /\
    at_ m 1 = Some number /\ at_ m 2 = Some unit /\ v = number ++ unit.
Proof.
  unfold capacitanceOf.
  destruct (match_ text capacitancePattern) as [m|] eqn:E; [|discriminate].
  intro H. inversion H; subst v. clear H.
  destruct (capacitancePattern_groups _ E) as (number & unit & G).
  exists m, number, unit. unfold at_. rewrite G. simpl.
  repeat split; reflexivity.
Qed.

Lemma voltageOf_defined (text v : jsstring) :
  voltageOf text = Some v ->
  exists m number,
    match_ text voltagePattern = Some m /\
    at_ m 1 = Some number /\ v = number ++ js "V".
Proof.
  unfold voltageOf.
  destruct (match_ text voltagePattern) as [m|] eqn:E; [|discriminate].
  intro H. inversion H; subst v. clear H.
  destruct (voltagePattern_groups _ E) as (number & G).
  exists m, number. unfold at_. rewrite G. simpl.
  repeat split; reflexivity.
Qed.

End PatternCaptures.

(* ===================================================================== *)
(** ** Part numbers *)
(* ===================================================================== *)

Section PartNumbers.
Import RegExp ComponentAnalyzer Reference.

Lemma range_In (n : nat) (lo ch : N) :
  (lo <= ch < lo + N.of_nat n)%N -> In ch (range lo n).
Proof.
  revert lo. induction n as [|n IH]; intros lo H; [lia|].
  simpl. destruct (N.eq_dec lo ch) as [E|E]; [now left | right].
  apply IH. lia.
Qed.

Lemma Canonicalize_not_ascii (ch : N) :
  (128 <= ch)%N -> (128 <= Canonicalize ch)%N.
Proof.
  intro H. unfold Canonicalize, between.
  destruct (97 <=? ch)%N eqn:E1; destruct (ch <=? 122)%N eqn:E2; simpl;
    try (apply N.leb_le in E2; lia);
    destruct ((ch =? MICRO)%N || (ch =? mu)%N);
    try (vm_compute; discriminate);
    destruct (ch =? omega)%N; try (vm_compute; discriminate); assumption.
Qed.

(** The class [A-Z0-9], case ignored, accepts ASCII letters and digits
    and nothing else. *)
Lemma alnum_class (ch : N) :
  accepts (range 65 26 ++ range 48 10) ch = true -> isAlnum ch = true.
Proof.
  intro H. destruct (N.lt_ge_cases ch 128) as [Hlt|Hge].
  - assert (Hall : forallb
      (fun ch => implb (accepts (range 65 26 ++ range 48 10) ch) (isAlnum ch))
      (range 0 128) = true) by (vm_compute; reflexivity).
    rewrite forallb_forall in Hall.
    assert (Hin : In ch (range 0 128)) by (apply range_In; lia).
    specialize (Hall ch Hin).
    rewrite H in Hall. exact Hall.
  - exfalso. unfold accepts in H. apply existsb_exists in H.
    destruct H as (a & Ha & E). apply N.eqb_eq in E.
    pose proof (Canonicalize_not_ascii Hge) as Hc. rewrite <- E in Hc.
    assert (Hall : forallb (fun a => (Canonicalize a <? 128)%N)
                     (range 65 26 ++ range 48 10) = true)
      by (vm_compute; reflexivity).
    rewrite forallb_forall in Hall. specialize (Hall a Ha).
    apply N.ltb_lt in Hall. lia.
Qed.

(** A bounded repetition of a class consumes between [min] and [max]
    code units of the class. *)
Lemma quantified_class (whole : jsstring) (members : list N) (q : regex)
      (x y : jsstring) (c c' : captures) :
  derives whole q x c y c' ->
  forall (min : nat) (max : option nat),
    q = Quant min max (CharSet members) ->
    (forall n, max = Some n -> min <= n) ->
    exists consumed,
      x = consumed ++ y /\
      Forall (fun ch => accepts members ch = true) consumed /\
      min <= List.length consumed /\
      (forall n, max = Some n -> List.length consumed <= n).
Proof.
  induction 1 as [ | | | | | | | | min0 max0 r x c Hstop
                 | min0 max0 r x c y c1 z c2 Hmax Hr _ Hq IH ];
    intros min max Eq Hle; try discriminate.
  - inversion Eq; subst. exists []. repeat split.
    + constructor.
    + destruct Hstop as [->| ->]; [lia|]. specialize (Hle 0 eq_refl). lia.
    + intros n _. simpl. lia.
  - inversion Eq; subst. inversion Hr; subst.
    destruct (IH (pred min) (pred_max max) eq_refl) as (p & -> & Hall & Hlo & Hhi).
    { intros n Hn. destruct max as [m|]; [|discriminate].
      inversion Hn; subst. specialize (Hle m eq_refl). lia. }
    exists (ch :: p). repeat split.
    + now constructor.
    + simpl. lia.
    + intros n Hn. subst max. simpl in Hhi. specialize (Hhi (pred n) eq_refl).
      simpl. destruct n; [congruence | simpl in Hhi; lia].
Qed.

(** What passes the part-number test is 4 to 12 ASCII letters and
    digits. *)
Lemma partNumberPattern_shape (s : jsstring) :
  test partNumberPattern s = true ->
  4 <= List.length s <= 12 /\ Forall (fun ch => isAlnum ch = true) s.
Proof.
  unfold test, match_.
  destruct (execFrom s partNumberPattern s) as [m|] eqn:E; [|discriminate].
  intros _. apply execFrom_sound in E.
  destruct E as (skipped & x & y & Hs & Hd & _).
  unfold partNumberPattern, seq in Hd.
  inversion Hd as [ | |r1 r2 x0 c0 y1 c1 z c2 Hbol Hrest| | | | | | | ]; subst.
  inversion Hbol; subst.
  inversion Hrest as [ | |r1 r2 x0 c0 y2 c3 z c4 Hq Hend| | | | | | | ]; subst.
  inversion Hend as [ | |r1 r2 x0 c0 y3 c5 z c6 Heol Hempty| | | | | | | ]; subst.
  inversion Heol; subst.
  destruct (quantified_class Hq eq_refl) as (p & Hp & Hall & Hlo & Hhi).
  { intros n Hn. inversion Hn. lia. }
  rewrite app_nil_r in Hp. subst y1.
  assert (Hskip : skipped = []).
  { destruct skipped; [reflexivity|].
    match goal with
    | H : List.length _ = List.length (_ ++ _) |- _ =>
        rewrite length_app in H; simpl in H; lia
    end. }
  subst skipped. simpl.
  split; [split; [exact Hlo | exact (Hhi 12 eq_refl)]|].
  eapply Forall_impl; [|exact Hall].
  intros ch Hch. apply alnum_class. exact Hch.
Qed.

Lemma trimStart_split (s : jsstring) :
  exists l, s = l ++ trimStart s /\ Forall (fun ch => isWhiteSpace ch = true) l.
Proof.
  induction s as [|ch s (l & IH & Hl)]; simpl.
  - exists []. split; [reflexivity | constructor].
  - destruct (isWhiteSpace ch) eqn:E.
    + exists (ch :: l). split; [simpl; now f_equal | now constructor].
    + exists []. split; [reflexivity | constructor].
Qed.

Lemma trim_split (s : jsstring) :
  exists l r,
    s = l ++ trim s ++ r /\
    Forall (fun ch => isWhiteSpace ch = true) l /\
    Forall (fun ch => isWhiteSpace ch = true) r.
Proof.
  destruct (trimStart_split s) as (l & Hs & Hl).
  destruct (trimStart_split (rev (trimStart s))) as (r & Hr & Hrw).
  exists l, (rev r). unfold trim. repeat split.
  - rewrite <- rev_app_distr, <- Hr, rev_involutive. exact Hs.
  - exact Hl.
  - apply Forall_rev. exact Hrw.
Qed.

(** So the code units [analyzeIC] uppercases for the prefix test are
    ASCII letters, digits and white space. *)
Lemma prefix_domain (text : jsstring) :
  isPartNumber text = true ->
  Forall (fun ch => isAlnum ch || isWhiteSpace ch = true) (substring0 2 text).
Proof.
  intro H. apply partNumberPattern_shape in H. destruct H as [_ Ha].
  destruct (trim_split text) as (l & r & Ht & Hl & Hr).
  assert (Hall : Forall (fun ch => isAlnum ch || isWhiteSpace ch = true) text).
  { rewrite Ht. repeat (apply Forall_app; split).
    - eapply Forall_impl; [|exact Hl]. intros ch ->. apply orb_true_r.
    - eapply Forall_impl; [|exact Ha]. intros ch ->. reflexivity.
    - eapply Forall_impl; [|exact Hr]. intros ch ->. apply orb_true_r. }
  rewrite Forall_forall in *. intros ch Hin. apply Hall.
  unfold substring0 in Hin.
  rewrite <- (firstn_skipn 2 text). apply in_or_app. now left.
Qed.

End PartNumbers.

(* ===================================================================== *)
(** ** The stable sort *)
(* ===================================================================== *)

Import ComponentAnalyzer Reference.

Section SortFacts.

Local Abbreviation conf := TypeMatch.confidence.

Lemma insert_permutation (x : TypeMatch.t) (l : list TypeMatch.t) :
  Permutation (x :: l) (insert byConfidenceDesc x l).
Proof.
  induction l as [|y l IH]; simpl.
  - apply Permutation_refl.
  - destruct (Qle_bool (byConfidenceDesc x y) 0).
    + apply Permutation_refl.
    + eapply perm_trans; [apply perm_swap|].
      now apply perm_skip.
Qed.

Lemma sort_permutation (l : list TypeMatch.t) :
  Permutation l (sort byConfidenceDesc l).
Proof.
  induction l as [|x l IH]; simpl.
  - constructor.
  - eapply perm_trans; [apply perm_skip, IH|].
    apply insert_permutation.
Qed.

(** The comparator is not positive exactly when its first argument is
    at least as confident as the second. *)
Lemma comparator_le (x y : TypeMatch.t) :
  Qle_bool (byConfidenceDesc x y) 0 = true <-> (conf y <= conf x)%Q.
Proof.
  unfold byConfidenceDesc. rewrite Qle_bool_iff.
  split; intro H; lra.
Qed.

Lemma comparator_gt (x y : TypeMatch.t) :
  Qle_bool (byConfidenceDesc x y) 0 = false -> (conf x < conf y)%Q.
Proof.
  intro H. apply Qnot_le_lt. intro Hle.
  apply comparator_le in Hle. congruence.
Qed.

Lemma insert_descending (x : TypeMatch.t) (l : list TypeMatch.t) :
  descending l -> descending (insert byConfidenceDesc x l).
Proof.
  unfold descending.
  induction l as [|y l IH]; simpl; intro Hs.
  - repeat constructor.
  - destruct (Qle_bool (byConfidenceDesc x y) 0) eqn:E.
    + apply comparator_le in E.
      constructor; [assumption|].
      constructor; [assumption|].
      apply StronglySorted_inv in Hs. destruct Hs as [_ Hall].
      eapply Forall_impl; [|exact Hall].
      simpl. intros a Ha. eapply Qle_trans; eassumption.
    + apply comparator_gt in E.
      apply StronglySorted_inv in Hs. destruct Hs as [Hs Hall].
      constructor; [now apply IH|].
      eapply Permutation_Forall; [apply insert_permutation|].
      constructor; [now apply Qlt_le_weak | assumption].
Qed.

Lemma sort_descending (l : list TypeMatch.t) :
  descending (sort byConfidenceDesc l).
Proof.
  induction l as [|x l IH]; simpl.
  - constructor.
  - now apply insert_descending.
Qed.

Lemma insert_withConfidence (q : Q) (x : TypeMatch.t) (l : list TypeMatch.t) :
  withConfidence q (insert byConfidenceDesc x l) = withConfidence q (x :: l).
Proof.
  unfold withConfidence.
  induction l as [|y l IH]; simpl; [reflexivity|].
  destruct (Qle_bool (byConfidenceDesc x y) 0) eqn:E; [reflexivity|].
  apply comparator_gt in E.
  simpl in *. rewrite IH.
  destruct (Qeq_bool (conf x) q) eqn:Ex; [|reflexivity].
  destruct (Qeq_bool (conf y) q) eqn:Ey; [|reflexivity].
  apply Qeq_bool_iff in Ex, Ey.
  rewrite Ex, Ey in E. now apply Qlt_irrefl in E.
Qed.

Lemma sort_withConfidence (q : Q) (l : list TypeMatch.t) :
  withConfidence q (sort byConfidenceDesc l) = withConfidence q l.
Proof.
  induction l as [|x l IH]; simpl; [reflexivity|].
  rewrite insert_withConfidence.
  unfold withConfidence in *. simpl. now rewrite IH.
Qed.

Lemma sort_rankedStably (l : list TypeMatch.t) :
  rankedStably l (sort byConfidenceDesc l).
Proof.
  split; [apply sort_permutation|].
  split; [apply sort_descending|].
  intro q. apply sort_withConfidence.
Qed.

End SortFacts.

(** A stable ranking is unique: the three conditions of [rankedStably]
    leave one list only. *)
Section RankingUnique.

Local Abbreviation conf := TypeMatch.confidence.

Lemma withConfidence_In (q : Q) (m : TypeMatch.t) (l : list TypeMatch.t) :
  In m (withConfidence q l) <-> In m l /\ (conf m == q)%Q.
Proof.
  unfold withConfidence. rewrite filter_In, Qeq_bool_iff. tauto.
Qed.

Lemma descending_head_ge (a b : TypeMatch.t) (l : list TypeMatch.t) :
  descending (a :: l) -> In b l -> (conf b <= conf a)%Q.
Proof.
  intros Hs Hin. apply StronglySorted_inv in Hs. destruct Hs as [_ Hall].
  rewrite Forall_forall in Hall. now apply Hall.
Qed.

Lemma heads_tie (a b : TypeMatch.t) (r1 r2 : list TypeMatch.t) :
  descending (a :: r1) -> descending (b :: r2) ->
  (forall q, withConfidence q (a :: r1) = withConfidence q (b :: r2)) ->
  (conf b <= conf a)%Q.
Proof.
  intros H1 H2 Heq.
  assert (Hb : In b (withConfidence (conf b) (a :: r1))).
  { rewrite Heq. apply withConfidence_In. split; [now left | reflexivity]. }
  apply withConfidence_In in Hb. destruct Hb as [[Hb | Hb] _].
  - subst. apply Qle_refl.
  - eapply descending_head_ge; eassumption.
Qed.

Lemma descending_stable_eq (r1 r2 : list TypeMatch.t) :
  descending r1 -> descending r2 ->
  (forall q, withConfidence q r1 = withConfidence q r2) -> r1 = r2.
Proof.
  revert r2. induction r1 as [|a r1 IH]; intros [|b r2] H1 H2 Heq.
  - reflexivity.
  - specialize (Heq (conf b)). unfold withConfidence in Heq. simpl in Heq.
    rewrite Qeq_bool_refl in Heq. discriminate.
  - specialize (Heq (conf a)). unfold withConfidence in Heq. simpl in Heq.
    rewrite Qeq_bool_refl in Heq. discriminate.
  - assert (Hba : (conf b <= conf a)%Q) by (eapply heads_tie; eassumption).
    assert (Hab : (conf a <= conf b)%Q).
    { eapply heads_tie; try eassumption. intro q. symmetry. apply Heq. }
    assert (Htie : (conf b == conf a)%Q) by now apply Qle_antisym.
    assert (Hhead : a = b).
    { specialize (Heq (conf a)). unfold withConfidence in Heq. simpl in Heq.
      rewrite Qeq_bool_refl in Heq.
      apply Qeq_bool_iff in Htie. rewrite Htie in Heq. congruence. }
    subst b. f_equal. apply IH.
    + now apply StronglySorted_inv in H1.
    + now apply StronglySorted_inv in H2.
    + intro q. specialize (Heq q). unfold withConfidence in *. simpl in Heq.
      destruct (Qeq_bool (conf a) q); congruence.
Qed.

Lemma rankedStably_unique (l r1 r2 : list TypeMatch.t) :
  rankedStably l r1 -> rankedStably l r2 -> r1 = r2.
Proof.
  intros (_ & Hd1 & Hs1) (_ & Hd2 & Hs2).
  apply descending_stable_eq; try assumption.
  intro q. now rewrite Hs1, Hs2.
Qed.

End RankingUnique.

(* ===================================================================== *)
(** ** The classifier loops *)
(* ===================================================================== *)

Lemma scanLabels_typeMatch (type : jsstring) (keywords : list jsstring)
      (labels : list Label.t) (matches : list TypeMatch.t) :
  scanLabels type keywords labels matches =
  matches ++ typeMatch (type, keywords) labels.
Proof.
  unfold typeMatch. simpl.
  induction labels as [|label rest IH]; simpl.
  - now rewrite app_nil_r.
  - unfold labelMatches at 1.
    destruct (existsb _ keywords); [reflexivity | exact IH].
Qed.

Lemma classifier_loop (labels : list Label.t)
      (entries : list (jsstring * list jsstring)) (matches : list TypeMatch.t) :
  fold_left
    (fun matches entry =>
       let '(type, keywords) := entry in
       scanLabels type keywords labels matches)
    entries matches =
  matches ++ flat_map (fun entry => typeMatch entry labels) entries.
Proof.
  revert matches. induction entries as [|[type keywords] entries IH];
    intro matches; simpl.
  - now rewrite app_nil_r.
  - rewrite IH, scanLabels_typeMatch, <- app_assoc. reflexivity.
Qed.

Lemma identifyComponentType_sort (labels : list Label.t) :
  identifyComponentType labels = sort byConfidenceDesc (collectedMatches labels).
Proof.
  unfold identifyComponentType, collectedMatches.
  now rewrite classifier_loop.
Qed.

(* ===================================================================== *)
(** ** The extractor loops *)
(* ===================================================================== *)

Lemma eqs_true (a b : jsstring) : eqs a b = true <-> a = b.
Proof.
  unfold eqs. destruct (list_eq_dec N.eq_dec a b); split; congruence.
Qed.

Lemma isLine_true (t : TextDetection.t) :
  isLine t = true <-> TextDetection.Type_ t = js "LINE".
Proof. apply eqs_true. Qed.

Lemma isColorLabel_namesColor (l : Label.t) : isColorLabel l = namesColor l.
Proof. reflexivity. Qed.

Lemma firstOf_app (f : jsstring -> option jsstring) (l1 l2 : list jsstring) :
  firstOf f (l1 ++ l2) =
  match firstOf f l1 with
  | Some v => Some v
  | None => firstOf f l2
  end.
Proof.
  induction l1 as [|t l1 IH]; simpl; [reflexivity|].
  destruct (f t); [reflexivity | exact IH].
Qed.

(** The first line that yields a value decides, whatever follows it. *)
Lemma firstOf_split (f : jsstring -> option jsstring)
      (before after : list jsstring) (t v : jsstring) :
  Forall (fun u => f u = None) before -> f t = Some v ->
  firstOf f (before ++ t :: after) = Some v.
Proof.
  intros Hb Ht. induction Hb as [|u before Hu _ IH]; simpl.
  - now rewrite Ht.
  - now rewrite Hu.
Qed.

(** The last line that yields a value decides, whatever precedes it. *)
Lemma lastOf_split (f : jsstring -> option jsstring)
      (before after : list jsstring) (t v : jsstring) :
  Forall (fun u => f u = None) after -> f t = Some v ->
  lastOf f (before ++ t :: after) = Some v.
Proof.
  intros Ha Ht. unfold lastOf.
  rewrite rev_app_distr. simpl. rewrite <- app_assoc. simpl.
  apply firstOf_split; [|assumption].
  apply Forall_forall. intros u Hu. apply in_rev in Hu.
  rewrite Forall_forall in Ha. now apply Ha.
Qed.

Lemma lastOf_cons (f : jsstring -> option jsstring) (t : jsstring)
      (rest : list jsstring) :
  lastOf f (t :: rest) =
  match lastOf f rest with
  | Some v => Some v
  | None => f t
  end.
Proof.
  unfold lastOf. simpl. rewrite firstOf_app. simpl.
  destruct (firstOf f (rev rest)); [reflexivity|].
  now destruct (f t).
Qed.

Lemma scanResistance_firstOf (texts : list jsstring) (initial : option jsstring) :
  scanResistance texts initial =
  match firstOf resistanceOf texts with
  | Some v => Some v
  | None => initial
  end.
Proof.
  induction texts as [|text rest IH]; simpl; [reflexivity|].
  unfold resistanceOf at 1.
  destruct (RegExp.match_ text resistancePattern); [reflexivity | exact IH].
Qed.

Lemma capacitorStep_estimatedValue (a : CapacitorAnalysis.t) (text : jsstring) :
  CapacitorAnalysis.estimatedValue (capacitorStep a text) =
  match capacitanceOf text with
  | Some v => Some v
  | None => CapacitorAnalysis.estimatedValue a
  end.
Proof.
  unfold capacitorStep, capacitanceOf.
  destruct (RegExp.match_ text capacitancePattern);
    destruct (RegExp.match_ text voltagePattern); reflexivity.
Qed.

Lemma capacitorStep_voltage (a : CapacitorAnalysis.t) (text : jsstring) :
  CapacitorAnalysis.voltage (capacitorStep a text) =
  match voltageOf text with
  | Some v => Some v
  | None => CapacitorAnalysis.voltage a
  end.
Proof.
  unfold capacitorStep, voltageOf.
  destruct (RegExp.match_ text capacitancePattern);
    destruct (RegExp.match_ text voltagePattern); reflexivity.
Qed.

Lemma capacitor_loop (texts : list jsstring) (a : CapacitorAnalysis.t) :
  CapacitorAnalysis.estimatedValue (fold_left capacitorStep texts a) =
    match lastOf capacitanceOf texts with
    | Some v => Some v
    | None => CapacitorAnalysis.estimatedValue a
    end /\
  CapacitorAnalysis.voltage (fold_left capacitorStep texts a) =
    match lastOf voltageOf texts with
    | Some v => Some v
    | None => CapacitorAnalysis.voltage a
    end.
Proof.
  revert a. induction texts as [|text rest IH]; intro a; simpl.
  - split; reflexivity.
  - destruct (IH (capacitorStep a text)) as [He Hv].
    rewrite He, Hv, !lastOf_cons.
    rewrite capacitorStep_estimatedValue, capacitorStep_voltage.
    split.
    + destruct (lastOf capacitanceOf rest); [reflexivity|].
      now destruct (capacitanceOf text).
    + destruct (lastOf voltageOf rest); [reflexivity|].
      now destruct (voltageOf text).
Qed.

Lemma ic_loop (texts : list jsstring) (a : ICAnalysis.t) :
  fold_left icStep texts a =
  ICAnalysis.mk
    (ICAnalysis.partNumbers a ++ map trim (filter isPartNumber texts))
    (ICAnalysis.manufacturers a ++
       map advisory
         (filter (fun t => isPartNumber t && hasListedPrefix t) texts)).
Proof.
  revert a. induction texts as [|text rest IH]; intro a; simpl.
  - rewrite !app_nil_r. now destruct a.
  - rewrite IH. unfold icStep.
    fold (isPartNumber text). fold (prefixOf text). fold (hasListedPrefix text).
    destruct (isPartNumber text); simpl; [|reflexivity].
    destruct (hasListedPrefix text); simpl.
    + rewrite <- !app_assoc. reflexivity.
    + rewrite <- !app_assoc. reflexivity.
Qed.

(* ===================================================================== *)
(** ** Properties of the engine *)
(* ===================================================================== *)

(** C1.  The result of [interpretResults] has its [possibleTypes] in
    descending order of confidence; its [type] and [confidence] are those
    of the first possible type when there is one, and ["unknown"] and 0
    otherwise; and [detectedText] is built from detections of
    granularity LINE only, all of them taken from the input, whatever the
    order of the input. *)
Theorem interpretResults_invariants :
  forall (labels : list Label.t) (textDetections : list TextDetection.t),
    let r := interpretResults labels textDetections in
    descending (ComponentData.possibleTypes r) /\
    match ComponentData.possibleTypes r with
    | top :: _ =>
        ComponentData.type r = TypeMatch.type top /\
        ComponentData.confidence r = TypeMatch.confidence top
    | [] =>
        ComponentData.type r = js "unknown" /\
        ComponentData.confidence r = 0%Q
    end /\
    exists lines : list TextDetection.t,
      ComponentData.detectedText r =
        map (fun t => TextLine.mk (TextDetection.DetectedText t)
                                  (TextDetection.Confidence t)) lines /\
      Forall (fun t => TextDetection.Type_ t = js "LINE") lines /\
      incl lines textDetections.
Proof.
  intros labels textDetections r. subst r. unfold interpretResults.
  pose proof (sort_descending (collectedMatches labels)) as Hd.
  rewrite <- identifyComponentType_sort in Hd.
  destruct (identifyComponentType labels) as [|top rest]; simpl.
  - split; [constructor|]. split; [split; reflexivity|].
    exists (filter isLine textDetections). split; [reflexivity|]. split.
    + apply Forall_forall. intros t Ht. apply filter_In in Ht.
      now apply isLine_true.
    + intros t Ht. now apply filter_In in Ht.
  - split; [exact Hd|]. split; [split; reflexivity|].
    exists (filter isLine textDetections). split; [reflexivity|]. split.
    + apply Forall_forall. intros t Ht. apply filter_In in Ht.
      now apply isLine_true.
    + intros t Ht. now apply filter_In in Ht.
Qed.

(** C2.  [identifyComponentType] is the reference classifier: the matches
    collected type by type over the canonical list, each type giving the
    match of the first label in input order that carries one of its
    keywords, ranked by confidence descending with ties in their
    collected order.  A later label of higher confidence does not replace
    the first one, and one label can give matches for several types. *)
Theorem identifyComponentType_reference :
  (forall labels : list Label.t,
     rankedStably (collectedMatches labels) (identifyComponentType labels)) /\
  identifyComponentType
    [Label.mk (js "Resistor") 70; Label.mk (js "Resistance") 99] =
    [TypeMatch.mk (js "resistor") 70 (js "Resistor")] /\
  identifyComponentType [Label.mk (js "LED chip") 88] =
    [TypeMatch.mk (js "diode") 88 (js "LED chip");
     TypeMatch.mk (js "integrated_circuit") 88 (js "LED chip")].
Proof.
  split.
  - intro labels. rewrite identifyComponentType_sort. apply sort_rankedStably.
  - split; vm_compute; reflexivity.
Qed.

(** C3, as the code has it.  [analyzeIC] tests the manufacturer prefix
    only on lines whose trimmed text is a part number: [partNumbers] are
    the trimmed part-number lines in order, and [manufacturers] has one
    advisory for each part-number line whose first two code units,
    uppercased, are in the prefix list.  Nothing is deduplicated. *)
Theorem analyzeIC_prefix_guarded :
  (forall textDetections : list TextDetection.t,
     let texts := lineTexts textDetections in
     ICAnalysis.partNumbers (analyzeIC textDetections) =
       map trim (filter isPartNumber texts) /\
     ICAnalysis.manufacturers (analyzeIC textDetections) =
       map advisory
         (filter (fun t => isPartNumber t && hasListedPrefix t) texts)) /\
  analyzeIC [line (js "LM358") 99; line (js "LM358") 99] =
    ICAnalysis.mk [js "LM358"; js "LM358"]
                  [js "Likely LM series"; js "Likely LM series"].
Proof.
  split.
  - intros textDetections texts. subst texts. unfold analyzeIC.
    rewrite ic_loop. simpl. split; reflexivity.
  - vm_compute. reflexivity.
Qed.

(** C3, as the specification states it, fails: the line "LM3" begins with
    a listed prefix and is not a part number, and no advisory is added
    for it. *)
Lemma analyzeIC_prefix_not_independent :
  ~ (forall (textDetections : list TextDetection.t) (text : jsstring),
       In text (lineTexts textDetections) ->
       hasListedPrefix text = true ->
       In (advisory text)
          (ICAnalysis.manufacturers (analyzeIC textDetections))).
Proof.
  intro H.
  specialize (H [line (js "LM3") 99] (js "LM3")).
  vm_compute in H. apply H; [now left | reflexivity].
Qed.

(** C4.  [analyzeCapacitor] goes through every line: [estimatedValue] is
    what the capacitance pattern yields on the last line it matches, and
    [voltage] what the voltage pattern yields on the last line it
    matches, each independently of the other.  On "10uF", "16V", "22uF"
    the result is "22uF" and "16V". *)
Theorem analyzeCapacitor_last_match :
  (forall textDetections : list TextDetection.t,
     let r := analyzeCapacitor textDetections in
     CapacitorAnalysis.estimatedValue r =
       lastOf capacitanceOf (lineTexts textDetections) /\
     CapacitorAnalysis.voltage r =
       lastOf voltageOf (lineTexts textDetections)) /\
  (forall c1 c2 c3 : Q,
     analyzeCapacitor
       [line (js "10uF") c1; line (js "16V") c2; line (js "22uF") c3] =
       CapacitorAnalysis.mk (Some (js "22uF")) (Some (js "16V"))).
Proof.
  split.
  - intros textDetections r. subst r. unfold analyzeCapacitor.
    destruct (capacitor_loop (lineTexts textDetections)
                (CapacitorAnalysis.mk None None)) as [He Hv].
    rewrite He, Hv. simpl.
    split.
    + now destruct (lastOf capacitanceOf (lineTexts textDetections)).
    + now destruct (lastOf voltageOf (lineTexts textDetections)).
  - intros c1 c2 c3. vm_compute. reflexivity.
Qed.

(** C5.  [analyzeResistor] takes [estimatedValue] from the first line, in
    order, that the resistance pattern matches: the number, the
    multiplier and the ohm sign; later lines are not looked at.  On
    "100Ω", "1kΩ" the value is "100Ω". *)
Theorem analyzeResistor_first_match :
  (forall (labels : list Label.t) (textDetections : list TextDetection.t),
     ResistorAnalysis.estimatedValue (analyzeResistor labels textDetections) =
       firstOf resistanceOf (lineTexts textDetections)) /\
  (forall (labels : list Label.t) (c1 c2 : Q),
     ResistorAnalysis.estimatedValue
       (analyzeResistor labels
          [line (js "100" ++ [OMEGA]) c1; line (js "1k" ++ [OMEGA]) c2]) =
       Some (js "100" ++ [OMEGA])).
Proof.
  split.
  - intros labels textDetections. unfold analyzeResistor. cbv zeta.
    destruct (2 <=? List.length (filter isColorLabel labels))%nat;
      cbn [ResistorAnalysis.estimatedValue];
      rewrite scanResistance_firstOf;
      now destruct (firstOf resistanceOf (lineTexts textDetections)).
  - intros labels c1 c2. unfold analyzeResistor. cbv zeta.
    destruct (2 <=? List.length (filter isColorLabel labels))%nat;
      cbn [ResistorAnalysis.estimatedValue];
      rewrite scanResistance_firstOf; vm_compute; reflexivity.
Qed.

(** C6.  [analyzeResistor] sets [hasColorBands] exactly when at least two
    labels name one of the ten colours in their lowercased name; then
    [detectedColors] are the names of those labels as given and the note
    is the fixed one, and otherwise there are no colours and no note.  On
    "red band", "brown band" the colours are those two names. *)
Theorem analyzeResistor_color_bands :
  (forall (labels : list Label.t) (textDetections : list TextDetection.t),
     let r := analyzeResistor labels textDetections in
     let colorLabels := filter namesColor labels in
     ResistorAnalysis.hasColorBands r =
       (2 <=? List.length colorLabels)%nat /\
     if ResistorAnalysis.hasColorBands r
     then ResistorAnalysis.detectedColors r = map Label.Name colorLabels /\
          ResistorAnalysis.note r =
            Some (js "Resistor identified with visible color bands")
     else ResistorAnalysis.detectedColors r = [] /\
          ResistorAnalysis.note r = None) /\
  (forall textDetections : list TextDetection.t,
     let r := analyzeResistor
                [Label.mk (js "red band") 90; Label.mk (js "brown band") 90]
                textDetections in
     ResistorAnalysis.hasColorBands r = true /\
     ResistorAnalysis.detectedColors r = [js "red band"; js "brown band"]).
Proof.
  split.
  - intros labels textDetections r colorLabels. subst r colorLabels.
    unfold analyzeResistor.
    change (filter isColorLabel labels) with (filter namesColor labels).
    destruct (2 <=? List.length (filter namesColor labels))%nat; simpl;
      repeat split; reflexivity.
  - intros textDetections r. subst r. unfold analyzeResistor.
    split; vm_compute; reflexivity.
Qed.

(** Zero, however it is written, prints as "0.0". *)
Lemma toFixed_zero (q : Q) : (q == 0)%Q -> toFixed 1 q = js "0.0".
Proof.
  intro H. unfold toFixed.
  assert (Hle : Qle_bool 0 q = true)
    by (apply Qle_bool_iff; rewrite H; apply Qle_refl).
  assert (Hn : Qfloor (Qabs q * inject_Z (10 ^ Z.of_nat 1) + (1 # 2))%Q = 0%Z).
  { assert (E : (Qabs q * inject_Z (10 ^ Z.of_nat 1) + (1 # 2) == 1 # 2)%Q)
      by (rewrite H; reflexivity).
    rewrite E. reflexivity. }
  rewrite Hle, Hn. reflexivity.
Qed.

(** C7.  The summary begins with the header line "Identified as: <type>
    (<confidence to one decimal place>% confidence)", and whatever
    follows starts on a new line.  For a resistor whose analysis is
    present, a truthy [estimatedValue] gives the value line and nothing
    else; without it, [hasColorBands] gives the colour line; otherwise
    there is the header alone.  For type "unknown" with confidence 0 the
    summary is the one line "Identified as: unknown (0.0% confidence)". *)
Theorem generateIdentificationSummary_format :
  (forall r : ComponentData.t,
     exists rest : jsstring,
       generateIdentificationSummary r =
         header (ComponentData.type r) (ComponentData.confidence r) ++ rest /\
       (rest = [] \/ exists more, rest = 10%N :: more)) /\
  (forall (r : ComponentData.t) (ra : ResistorAnalysis.t),
     ComponentData.type r = js "resistor" ->
     Analysis.resistor (ComponentData.analysis r) = Some ra ->
     generateIdentificationSummary r =
       header (ComponentData.type r) (ComponentData.confidence r) ++
       (if truthy (ResistorAnalysis.estimatedValue ra)
        then [10%N] ++ js "Estimated value: " ++
             interp (ResistorAnalysis.estimatedValue ra)
        else if ResistorAnalysis.hasColorBands ra
        then [10%N] ++ js "Color bands detected: " ++
             join (js ", ") (ResistorAnalysis.detectedColors ra)
        else [])) /\
  (forall r : ComponentData.t,
     ComponentData.type r = js "unknown" ->
     (ComponentData.confidence r == 0)%Q ->
     generateIdentificationSummary r =
       js "Identified as: unknown (0.0% confidence)").
Proof.
  split; [|split].
  - intro r. unfold generateIdentificationSummary. cbv zeta.
    fold (header (ComponentData.type r) (ComponentData.confidence r)).
    set (h := header (ComponentData.type r) (ComponentData.confidence r)).
    destruct (eqs (ComponentData.type r) (js "resistor"));
      destruct (Analysis.resistor (ComponentData.analysis r)) as [ra|];
      try (destruct (truthy (ResistorAnalysis.estimatedValue ra));
           [eexists; split; [reflexivity | right; eexists; reflexivity]|];
           destruct (ResistorAnalysis.hasColorBands ra);
           [eexists; split; [reflexivity | right; eexists; reflexivity]|];
           exists []; split; [now rewrite app_nil_r | now left]).
    all: destruct (eqs (ComponentData.type r) (js "capacitor"));
      destruct (Analysis.capacitor (ComponentData.analysis r)) as [ca|];
      try (destruct (truthy (CapacitorAnalysis.estimatedValue ca));
           destruct (truthy (CapacitorAnalysis.voltage ca));
           [ rewrite <- app_assoc; eexists; split;
               [reflexivity | right; eexists; reflexivity]
           | eexists; split; [reflexivity | right; eexists; reflexivity]
           | eexists; split; [reflexivity | right; eexists; reflexivity]
           | exists []; split; [now rewrite app_nil_r | now left] ]).
    all: destruct (eqs (ComponentData.type r) (js "integrated_circuit"));
      destruct (Analysis.ic (ComponentData.analysis r)) as [ia|];
      try (destruct (0 <? List.length (ICAnalysis.partNumbers ia))%nat;
           [eexists; split; [reflexivity | right; eexists; reflexivity]|]);
      exists []; split; solve [now rewrite app_nil_r | now left].
  - intros r ra Htype Hres. unfold generateIdentificationSummary. cbv zeta.
    fold (header (ComponentData.type r) (ComponentData.confidence r)).
    rewrite Hres.
    replace (eqs (ComponentData.type r) (js "resistor")) with true
      by (symmetry; now apply eqs_true).
    destruct (truthy (ResistorAnalysis.estimatedValue ra)); [reflexivity|].
    destruct (ResistorAnalysis.hasColorBands ra); [reflexivity|].
    now rewrite app_nil_r.
  - intros [confidence type possibleTypes labels texts analysis]. simpl.
    intros -> Hzero. unfold generateIdentificationSummary. cbv zeta.
    cbn [ComponentData.type ComponentData.confidence ComponentData.analysis].
    rewrite (toFixed_zero Hzero). reflexivity.
Qed.

(** Both premises of C7 hold of actual results: a resistor identified
    from a label and a line, and the result for empty input. *)
Lemma generateIdentificationSummary_format_witness :
  let resistor :=
    interpretResults [Label.mk (js "Resistor") 90]
                     [line (js "4.7 kohm") 99] in
  let unknown := interpretResults [] [] in
  (ComponentData.type resistor = js "resistor" /\
   Analysis.resistor (ComponentData.analysis resistor) =
     Some (ResistorAnalysis.mk false [] (Some (js "4.7k" ++ [OMEGA])) None) /\
   generateIdentificationSummary resistor =
     js "Identified as: resistor (90.0% confidence)" ++ [10%N] ++
     js "Estimated value: 4.7k" ++ [OMEGA]) /\
  (ComponentData.type unknown = js "unknown" /\
   (ComponentData.confidence unknown == 0)%Q /\
   generateIdentificationSummary unknown =
     js "Identified as: unknown (0.0% confidence)").
Proof.
  intros resistor unknown. split.
  - split; [reflexivity|]. split; [reflexivity|].
    exact (proj1 (proj2 generateIdentificationSummary_format) resistor
             (ResistorAnalysis.mk false [] (Some (js "4.7k" ++ [OMEGA])) None)
             eq_refl eq_refl).
  - split; [reflexivity|]. split; [reflexivity|].
    exact (proj2 (proj2 generateIdentificationSummary_format) unknown
             eq_refl (Qeq_refl 0)).
Defined.

(** C8.  On empty input [interpretResults] returns the fallback result:
    type "unknown", confidence 0, no possible types, no labels, no text
    and an empty analysis. *)
Theorem interpretResults_empty :
  interpretResults [] [] =
    ComponentData.mk 0%Q (js "unknown") [] [] [] (Analysis.mk None None None).
Proof. vm_compute. reflexivity. Qed.

(** C9.  [detectedLabels] has one entry for each input label, in input
    order, with the label's name and confidence; [detectedText] has one
    entry for each detection whose granularity is LINE, in input order,
    with its text and confidence. *)
Theorem interpretResults_evidence :
  forall (labels : list Label.t) (textDetections : list TextDetection.t),
    let r := interpretResults labels textDetections in
    ComponentData.detectedLabels r =
      map (fun l => DetectedLabel.mk (Label.Name l) (Label.Confidence l))
          labels /\
    ComponentData.detectedText r =
      map (fun t => TextLine.mk (TextDetection.DetectedText t)
                                (TextDetection.Confidence t))
          (filter (fun t => eqs (TextDetection.Type_ t) (js "LINE"))
                  textDetections).
Proof.
  intros labels textDetections r. subst r. unfold interpretResults.
  destruct (identifyComponentType labels); simpl; split; reflexivity.
Qed.

(** C10.  The unit prefix of the capacitance pattern is optional: the
    line "100F" sets [estimatedValue] to "100F". *)
Theorem analyzeCapacitor_unit_prefix_optional :
  forall confidence : Q,
    CapacitorAnalysis.estimatedValue
      (analyzeCapacitor [line (js "100F") confidence]) = Some (js "100F").
Proof. intro confidence. vm_compute. reflexivity. Qed.

(* ===================================================================== *)
(** ** Further properties of the classifier *)
(* ===================================================================== *)

Import Vocabulary.

Lemma existsb_find (A : Type) (f : A -> bool) (l : list A) :
  existsb f l = match find f l with Some _ => true | None => false end.
Proof.
  induction l as [|a l IH]; simpl; [reflexivity|].
  destruct (f a); [reflexivity | exact IH].
Qed.

Lemma typeMatch_type (entry : jsstring * list jsstring) (labels : list Label.t) :
  map TypeMatch.type (typeMatch entry labels) =
  if existsb (labelMatches (snd entry)) labels then [fst entry] else [].
Proof.
  unfold typeMatch. rewrite existsb_find.
  now destruct (find (labelMatches (snd entry)) labels).
Qed.

Lemma collected_types (labels : list Label.t)
      (entries : list (jsstring * list jsstring)) :
  map TypeMatch.type (flat_map (fun entry => typeMatch entry labels) entries) =
  map fst (filter (fun entry => existsb (labelMatches (snd entry)) labels)
                  entries).
Proof.
  induction entries as [|entry entries IH]; simpl; [reflexivity|].
  rewrite map_app, typeMatch_type, IH.
  now destruct (existsb (labelMatches (snd entry)) labels).
Qed.

Lemma canonicalTypes_NoDup : NoDup canonicalTypes.
Proof.
  vm_compute. repeat constructor; simpl; intuition discriminate.
Qed.

Lemma filter_sublist_length (A : Type) (f : A -> bool) (l : list A) :
  List.length (filter f l) <= List.length l.
Proof.
  induction l as [|a l IH]; simpl; [lia|]. destruct (f a); simpl; lia.
Qed.

Lemma NoDup_map_filter (A B : Type) (g : A -> B) (f : A -> bool) (l : list A) :
  NoDup (map g l) -> NoDup (map g (filter f l)).
Proof.
  induction l as [|a l IH]; simpl; intro H; [constructor|].
  inversion H as [|? ? Hn Hd]; subst.
  destruct (f a); simpl; [|now apply IH].
  constructor; [|now apply IH].
  intro Hin. apply Hn. apply in_map_iff in Hin.
  destruct Hin as (x & Hx & Hf). apply filter_In in Hf.
  apply in_map_iff. exists x. tauto.
Qed.

(** Every collected match comes from an input label that carries a
    keyword of the match's type. *)
Lemma collected_from_label (labels : list Label.t) (m : TypeMatch.t) :
  In m (collectedMatches labels) ->
  exists entry label,
    In entry typeKeywords /\ In label labels /\
    labelMatches (snd entry) label = true /\
    m = TypeMatch.mk (fst entry) (Label.Confidence label) (Label.Name label).
Proof.
  unfold collectedMatches. intro H. apply in_flat_map in H.
  destruct H as (entry & He & Hm). unfold typeMatch in Hm.
  destruct (find (labelMatches (snd entry)) labels) as [label|] eqn:E;
    [|contradiction].
  destruct Hm as [Hm|[]]. apply find_some in E. destruct E as [Hl Hk].
  exists entry, label. repeat split; auto.
Qed.

Lemma identified_from_label (labels : list Label.t) (m : TypeMatch.t) :
  In m (identifyComponentType labels) ->
  exists entry label,
    In entry typeKeywords /\ In label labels /\
    labelMatches (snd entry) label = true /\
    m = TypeMatch.mk (fst entry) (Label.Confidence label) (Label.Name label).
Proof.
  intro H. apply collected_from_label.
  rewrite identifyComponentType_sort in H.
  eapply Permutation_in; [|exact H].
  apply Permutation_sym, sort_permutation.
Qed.

(** A list that is already in descending order is left as it is. *)
Lemma sort_descending_id (l : list TypeMatch.t) :
  descending l -> sort byConfidenceDesc l = l.
Proof.
  intro H. apply (@rankedStably_unique l).
  - apply sort_rankedStably.
  - repeat split; [apply Permutation_refl | exact H].
Qed.

(** X1.  [identifyComponentType] returns at most one match for each
    type, every type is one of the keyword table, and so there are at
    most seven matches. *)
Theorem identifyComponentType_one_per_type :
  forall labels : list Label.t,
    let matches := identifyComponentType labels in
    NoDup (map TypeMatch.type matches) /\
    incl (map TypeMatch.type matches) canonicalTypes /\
    List.length matches <= 7.
Proof.
  intros labels matches. subst matches.
  pose proof (sort_permutation (collectedMatches labels)) as Hp.
  rewrite <- identifyComponentType_sort in Hp.
  pose proof (Permutation_map TypeMatch.type Hp) as Hm.
  unfold collectedMatches in Hm. rewrite collected_types in Hm.
  repeat split.
  - eapply Permutation_NoDup; [exact Hm|].
    apply NoDup_map_filter. exact canonicalTypes_NoDup.
  - intros t Ht. eapply Permutation_in in Ht; [|apply Permutation_sym, Hm].
    apply in_map_iff in Ht. destruct Ht as (entry & <- & He).
    apply filter_In in He. unfold canonicalTypes. apply in_map. tauto.
  - rewrite <- (length_map TypeMatch.type).
    rewrite <- (Permutation_length Hm), length_map.
    apply (filter_sublist_length _ typeKeywords).
Qed.

(** X2.  The result of [interpretResults] is of type "unknown" exactly
    when no label carries a keyword of any type, and exactly then there
    is no possible type. *)
Theorem interpretResults_unknown :
  forall (labels : list Label.t) (textDetections : list TextDetection.t),
    let r := interpretResults labels textDetections in
    eqs (ComponentData.type r) (js "unknown") = negb (anyKeyword labels) /\
    match ComponentData.possibleTypes r with
    | [] => anyKeyword labels = false
    | _ :: _ => anyKeyword labels = true
    end.
Proof.
  intros labels textDetections r. subst r. unfold interpretResults.
  assert (Hany : forall m rest,
            identifyComponentType labels = m :: rest ->
            anyKeyword labels = true /\
            eqs (TypeMatch.type m) (js "unknown") = false).
  { intros m rest E.
    assert (Hin : In m (identifyComponentType labels))
      by (rewrite E; now left).
    destruct (identified_from_label _ _ Hin) as (entry & label & He & Hl & Hk & ->).
    split.
    - unfold anyKeyword. apply existsb_exists. exists entry. split; [exact He|].
      apply existsb_exists. exists label. tauto.
    - simpl. clear - He. unfold typeKeywords in He. simpl in He.
      repeat (destruct He as [<-|He]; [vm_compute; reflexivity|]).
      contradiction. }
  assert (Hnone : identifyComponentType labels = [] ->
                  anyKeyword labels = false).
  { intro E.
    pose proof (sort_permutation (collectedMatches labels)) as Hp.
    rewrite <- identifyComponentType_sort, E in Hp.
    apply Permutation_sym, Permutation_nil in Hp.
    unfold anyKeyword. apply not_true_is_false. intro Hex.
    apply existsb_exists in Hex. destruct Hex as (entry & He & Hx).
    assert (Hin : In (fst entry)
                     (map TypeMatch.type (collectedMatches labels))).
    { unfold collectedMatches. rewrite collected_types.
      apply in_map. apply filter_In. tauto. }
    rewrite Hp in Hin. contradiction. }
  destruct (identifyComponentType labels) as [|top rest] eqn:E; simpl.
  - rewrite (Hnone eq_refl). split; reflexivity.
  - destruct (Hany top rest eq_refl) as [Ha Ht]. rewrite Ha, Ht.
    split; reflexivity.
Qed.

(** X3.  When all labels have the same confidence, the possible types
    come in the order of the keyword table: ties are broken by the
    table, not by the order of the labels. *)
Theorem identifyComponentType_ties :
  forall (labels : list Label.t) (c : Q),
    Forall (fun l => (Label.Confidence l == c)%Q) labels ->
    identifyComponentType labels = collectedMatches labels.
Proof.
  intros labels c Hall.
  rewrite identifyComponentType_sort. apply sort_descending_id.
  assert (Hc : Forall (fun m => (TypeMatch.confidence m == c)%Q)
                 (collectedMatches labels)).
  { apply Forall_forall. intros m Hm.
    destruct (collected_from_label _ _ Hm) as (entry & label & _ & Hl & _ & ->).
    rewrite Forall_forall in Hall. simpl. now apply Hall. }
  unfold descending.
  induction (collectedMatches labels) as [|m l IH]; [constructor|].
  inversion Hc as [|? ? Hm Hl]; subst.
  constructor; [now apply IH|].
  eapply Forall_impl; [|exact Hl].
  intros a Ha. simpl in Ha. rewrite Ha, Hm. apply Qle_refl.
Qed.

Lemma identifyComponentType_ties_witness :
  let labels := [Label.mk (js "Microchip") 90; Label.mk (js "Resistor") 90] in
  Forall (fun l => (Label.Confidence l == 90)%Q) labels /\
  identifyComponentType labels =
    [TypeMatch.mk (js "resistor") 90 (js "Resistor");
     TypeMatch.mk (js "integrated_circuit") 90 (js "Microchip")].
Proof.
  intro labels.
  assert (H : Forall (fun l => (Label.Confidence l == 90)%Q) labels)
    by (repeat constructor; reflexivity).
  split; [exact H|].
  rewrite (identifyComponentType_ties H). vm_compute. reflexivity.
Defined.

(** X4.  When every label's confidence lies between 0 and 100, so do
    the confidence of the result and the confidences of all its possible
    types. *)
Theorem interpretResults_confidence_range :
  forall (labels : list Label.t) (textDetections : list TextDetection.t),
    Forall (fun l => (0 <= Label.Confidence l)%Q /\
                     (Label.Confidence l <= 100)%Q) labels ->
    let r := interpretResults labels textDetections in
    ((0 <= ComponentData.confidence r)%Q /\
     (ComponentData.confidence r <= 100)%Q) /\
    Forall (fun m => (0 <= TypeMatch.confidence m)%Q /\
                     (TypeMatch.confidence m <= 100)%Q)
           (ComponentData.possibleTypes r).
Proof.
  intros labels textDetections Hall r. subst r. unfold interpretResults.
  assert (Hm : Forall (fun m => (0 <= TypeMatch.confidence m)%Q /\
                                (TypeMatch.confidence m <= 100)%Q)
                 (identifyComponentType labels)).
  { apply Forall_forall. intros m Hin.
    destruct (identified_from_label _ _ Hin) as (entry & label & _ & Hl & _ & ->).
    rewrite Forall_forall in Hall. simpl. now apply Hall. }
  destruct (identifyComponentType labels) as [|top rest]; simpl.
  - split; [split; [apply Qle_refl | discriminate] | constructor].
  - split; [|exact Hm]. now inversion Hm.
Qed.

Lemma interpretResults_confidence_range_witness :
  let labels := [Label.mk (js "Capacitor") (997 # 10);
                 Label.mk (js "Chip") 80] in
  let r := interpretResults labels [] in
  Forall (fun l => (0 <= Label.Confidence l)%Q /\
                   (Label.Confidence l <= 100)%Q) labels /\
  (0 <= ComponentData.confidence r)%Q /\
  (ComponentData.confidence r <= 100)%Q.
Proof.
  intros labels r.
  assert (H : Forall (fun l => (0 <= Label.Confidence l)%Q /\
                               (Label.Confidence l <= 100)%Q) labels)
    by (repeat constructor; discriminate).
  split; [exact H|].
  exact (proj1 (interpretResults_confidence_range [] H)).
Defined.

(** X5.  The confidence of the result is the highest there is: no
    possible type has a higher one. *)
Theorem interpretResults_top_confidence :
  forall (labels : list Label.t) (textDetections : list TextDetection.t),
    let r := interpretResults labels textDetections in
    Forall (fun m => (TypeMatch.confidence m <= ComponentData.confidence r)%Q)
           (ComponentData.possibleTypes r).
Proof.
  intros labels textDetections r. subst r. unfold interpretResults.
  pose proof (sort_descending (collectedMatches labels)) as Hd.
  rewrite <- identifyComponentType_sort in Hd.
  destruct (identifyComponentType labels) as [|top rest]; simpl;
    [constructor|].
  apply StronglySorted_inv in Hd. destruct Hd as [_ Hall].
  constructor; [apply Qle_refl | exact Hall].
Qed.

Lemma filter_idempotent (A : Type) (f : A -> bool) (l : list A) :
  filter f (filter f l) = filter f l.
Proof.
  induction l as [|a l IH]; simpl; [reflexivity|].
  destruct (f a) eqn:E; simpl; [rewrite E; now f_equal | exact IH].
Qed.

(** X6.  Detections that are not of granularity LINE have no part in
    the result: dropping them from the input changes nothing, in the
    evidence, in the type or in the analysis. *)
Theorem interpretResults_ignores_words :
  forall (labels : list Label.t) (textDetections : list TextDetection.t),
    interpretResults labels textDetections =
    interpretResults labels (filter isLine textDetections).
Proof.
  intros labels textDetections.
  unfold interpretResults, analyzeResistor, analyzeCapacitor, analyzeIC,
    lineTexts.
  rewrite !filter_idempotent. reflexivity.
Qed.

(* ===================================================================== *)
(** ** Further properties of the IC extractor *)
(* ===================================================================== *)

Lemma analyzeIC_lists (textDetections : list TextDetection.t) :
  analyzeIC textDetections =
  ICAnalysis.mk
    (map trim (filter isPartNumber (lineTexts textDetections)))
    (map advisory
       (filter (fun t => isPartNumber t && hasListedPrefix t)
               (lineTexts textDetections))).
Proof. unfold analyzeIC. rewrite ic_loop. reflexivity. Qed.

Lemma filter_andb_length (A : Type) (f g : A -> bool) (l : list A) :
  List.length (filter (fun a => f a && g a) l) <= List.length (filter f l).
Proof.
  induction l as [|a l IH]; simpl; [lia|].
  destruct (f a); destruct (g a); simpl; lia.
Qed.

(** X7.  Every part number [analyzeIC] reports is 4 to 12 ASCII letters
    and digits, with no white space around it; there are never more
    advisories than part numbers, nor more part numbers than
    detections. *)
Theorem analyzeIC_part_numbers :
  forall textDetections : list TextDetection.t,
    let r := analyzeIC textDetections in
    Forall (fun number =>
              (4 <= List.length number <= 12) /\
              Forall (fun ch => isAlnum ch = true) number)
           (ICAnalysis.partNumbers r) /\
    List.length (ICAnalysis.manufacturers r) <=
      List.length (ICAnalysis.partNumbers r) /\
    List.length (ICAnalysis.partNumbers r) <= List.length textDetections.
Proof.
  intros textDetections r. subst r. rewrite analyzeIC_lists. simpl.
  repeat split.
  - apply Forall_forall. intros number Hin. apply in_map_iff in Hin.
    destruct Hin as (text & <- & Ht). apply filter_In in Ht.
    destruct Ht as [_ Ht]. now apply partNumberPattern_shape.
  - rewrite !length_map. apply filter_andb_length.
  - rewrite length_map. unfold lineTexts.
    eapply Nat.le_trans; [apply filter_sublist_length|].
    rewrite length_map. apply filter_sublist_length.
Qed.

Lemma prefixOf_length (text : jsstring) : List.length (prefixOf text) <= 2.
Proof.
  unfold prefixOf, toUpperCase, substring0. rewrite length_map.
  apply firstn_le_length.
Qed.

(** X8.  An advisory is one of the eight strings of the two-character
    prefixes; the three-character entry MAX of the prefix list never
    gives one. *)
Theorem analyzeIC_advisories :
  forall textDetections : list TextDetection.t,
    Forall (fun a => In a advisories)
           (ICAnalysis.manufacturers (analyzeIC textDetections)) /\
    ~ In (js "Likely MAX series")
         (ICAnalysis.manufacturers (analyzeIC textDetections)).
Proof.
  intro textDetections.
  assert (H : Forall (fun a => In a advisories)
                (ICAnalysis.manufacturers (analyzeIC textDetections))).
  { rewrite analyzeIC_lists. simpl.
    apply Forall_forall. intros a Hin. apply in_map_iff in Hin.
    destruct Hin as (text & <- & Ht). apply filter_In in Ht.
    destruct Ht as [_ Ht]. apply andb_prop in Ht. destruct Ht as [_ Hp].
    unfold hasListedPrefix in Hp. apply existsb_exists in Hp.
    destruct Hp as (p & Hin & Heq). apply eqs_true in Heq.
    pose proof (prefixOf_length text) as Hlen.
    unfold advisory. rewrite Heq in *. clear Heq.
    unfold manufacturerPrefixes in Hin. simpl in Hin.
    repeat (destruct Hin as [<-|Hin];
            [try (vm_compute; tauto); vm_compute in Hlen; lia|]).
    contradiction. }
  split; [exact H|].
  intro Hin. rewrite Forall_forall in H. specialize (H _ Hin).
  vm_compute in H. intuition discriminate.
Qed.

Lemma startsWithSpace_unlisted (text : jsstring) :
  startsWithSpace text = true -> hasListedPrefix text = false.
Proof.
  destruct text as [|ch rest]; [discriminate|]. simpl.
  unfold isWhiteSpace. intro H. apply existsb_exists in H.
  destruct H as (w & Hin & Heq). apply N.eqb_eq in Heq. subst w.
  unfold whiteSpace in Hin. simpl in Hin.
  repeat (destruct Hin as [<-|Hin];
          [destruct rest; vm_compute; reflexivity|]).
  contradiction.
Qed.

(** X9.  The prefix is read from the line as it is, not from the
    trimmed line: lines that begin with white space give no advisory,
    though their part numbers are reported. *)
Theorem analyzeIC_leading_space :
  forall textDetections : list TextDetection.t,
    Forall (fun text => startsWithSpace text = true)
           (lineTexts textDetections) ->
    analyzeIC textDetections =
    ICAnalysis.mk (map trim (filter isPartNumber (lineTexts textDetections)))
                  [].
Proof.
  intros textDetections Hall. rewrite analyzeIC_lists. f_equal.
  induction (lineTexts textDetections) as [|text texts IH];
    [reflexivity|].
  inversion Hall as [|? ? Ht Hrest]; subst. simpl.
  rewrite (startsWithSpace_unlisted _ Ht), andb_false_r.
  now apply IH.
Qed.

Lemma analyzeIC_leading_space_witness :
  let detections := [line (js " LM358") 99] in
  Forall (fun text => startsWithSpace text = true) (lineTexts detections) /\
  analyzeIC detections = ICAnalysis.mk [js "LM358"] [] /\
  analyzeIC [line (js "LM358") 99] =
    ICAnalysis.mk [js "LM358"] [js "Likely LM series"].
Proof.
  intro detections.
  assert (H : Forall (fun text => startsWithSpace text = true)
                (lineTexts detections))
    by (repeat constructor).
  split; [exact H|]. split; [|vm_compute; reflexivity].
  rewrite (analyzeIC_leading_space detections H). vm_compute. reflexivity.
Defined.

(* ===================================================================== *)
(** ** The shape of the extracted values *)
(* ===================================================================== *)

Section ValueShapes.
Import RegExp.

Lemma accepts_ascii (members : list N) (P : N -> bool) :
  forallb (fun a => (Canonicalize a <? 128)%N) members = true ->
  forallb (fun ch => implb (accepts members ch) (P ch)) (range 0 128) = true ->
  forall ch, accepts members ch = true -> P ch = true.
Proof.
  intros Hm Hall ch H. destruct (N.lt_ge_cases ch 128) as [Hlt|Hge].
  - rewrite forallb_forall in Hall.
    assert (Hin : In ch (range 0 128)) by (apply range_In; lia).
    specialize (Hall ch Hin). rewrite H in Hall. exact Hall.
  - exfalso. unfold accepts in H. apply existsb_exists in H.
    destruct H as (a & Ha & E). apply N.eqb_eq in E.
    pose proof (Canonicalize_not_ascii Hge) as Hc. rewrite <- E in Hc.
    rewrite forallb_forall in Hm. specialize (Hm a Ha).
    apply N.ltb_lt in Hm. lia.
Qed.

Lemma digit_class (ch : N) :
  accepts (range 48 10) ch = true -> isDigit ch = true.
Proof. apply accepts_ascii; vm_compute; reflexivity. Qed.

Lemma point_class (ch : N) : accepts (js ".") ch = true -> ch = 46%N.
Proof.
  intro H. apply N.eqb_eq. revert ch H.
  apply (accepts_ascii (js ".") (fun ch => N.eqb ch 46)); vm_compute;
    reflexivity.
Qed.

Lemma firstn_consumed (p y : jsstring) :
  firstn (List.length (p ++ y) - List.length y) (p ++ y) = p.
Proof.
  rewrite length_app.
  replace (List.length p + List.length y - List.length y)
    with (List.length p + 0) by lia.
  rewrite firstn_app_2. simpl. apply app_nil_r.
Qed.

Lemma number_shape (whole x y : jsstring) (c c' : captures) :
  derives whole (seq [plus digit; opt (chr "."); star digit]) x c y c' ->
  exists n, x = n ++ y /\ isNumber n.
Proof.
  unfold seq. intro H.
  inversion H as [ | |? ? ? ? y1 c1 ? ? H1 H23| | | | | | | ]; subst.
  inversion H23 as [ | |? ? ? ? y2 c2 ? ? H2 H3e| | | | | | | ]; subst.
  inversion H3e as [ | |? ? ? ? y3 c3 ? ? H3 He| | | | | | | ]; subst.
  inversion He; subst.
  destruct (quantified_class H1 eq_refl) as (int & -> & Hint & Hlo & _);
    [discriminate|].
  destruct (quantified_class H2 eq_refl) as (point & -> & Hpoint & _ & Hhi).
  { intros n Hn. inversion Hn. lia. }
  destruct (quantified_class H3 eq_refl) as (frac & -> & Hfrac & _ & _);
    [discriminate|].
  exists (int ++ point ++ frac). split; [now rewrite <- !app_assoc|].
  exists int, point, frac. repeat split.
  - intro E. subst int. simpl in Hlo. lia.
  - eapply Forall_impl; [|exact Hint]. intros ch Hch. now apply digit_class.
  - specialize (Hhi 1 eq_refl).
    destruct point as [|ch [|ch' point]]; [now left| |simpl in Hhi; lia].
    right. inversion Hpoint as [|? ? Hch _]; subst.
    apply point_class in Hch. now subst ch.
  - eapply Forall_impl; [|exact Hfrac]. intros ch Hch. now apply digit_class.
Qed.



Lemma farad_class (ch : N) :
  accepts (js "F") ch = true -> ch = 70%N \/ ch = 102%N.
Proof.
  intro H.
  assert (Hin : (ch =? 70)%N || (ch =? 102)%N = true).
  { revert ch H.
    apply (accepts_ascii (js "F")
             (fun ch => (ch =? 70)%N || (ch =? 102)%N));
      vm_compute; reflexivity. }
  apply orb_prop in Hin. destruct Hin as [E|E]; apply N.eqb_eq in E; auto.
Qed.

Lemma volt_class (ch : N) :
  accepts (js "V") ch = true -> ch = 86%N \/ ch = 118%N.
Proof.
  intro H.
  assert (Hin : (ch =? 86)%N || (ch =? 118)%N = true).
  { revert ch H.
    apply (accepts_ascii (js "V")
             (fun ch => (ch =? 86)%N || (ch =? 118)%N));
      vm_compute; reflexivity. }
  apply orb_prop in Hin. destruct Hin as [E|E]; apply N.eqb_eq in E; auto.
Qed.

Lemma Canonicalize_MU (ch : N) :
  Canonicalize ch = MU -> ch = MICRO \/ ch = mu \/ ch = MU.
Proof.
  unfold Canonicalize, between.
  destruct ((97 <=? ch)%N && (ch <=? 122)%N) eqn:E1.
  - apply andb_prop in E1. destruct E1 as [_ E1]. apply N.leb_le in E1.
    unfold MU. lia.
  - destruct (ch =? MICRO)%N eqn:E2; [apply N.eqb_eq in E2; auto|].
    destruct (ch =? mu)%N eqn:E3; [apply N.eqb_eq in E3; auto|]. simpl.
    destruct (ch =? omega)%N; [discriminate | auto].
Qed.

Lemma unitPrefix_class (ch : N) :
  accepts ([MICRO] ++ js "u" ++ [mu] ++ js "pnm") ch = true ->
  In ch unitPrefixes.
Proof.
  intro H. destruct (N.lt_ge_cases ch 128) as [Hlt|Hge].
  - assert (Hall : forallb
      (fun ch => implb (accepts ([MICRO] ++ js "u" ++ [mu] ++ js "pnm") ch)
                       (existsb (N.eqb ch) unitPrefixes))
      (range 0 128) = true) by (vm_compute; reflexivity).
    rewrite forallb_forall in Hall.
    assert (Hin : In ch (range 0 128)) by (apply range_In; lia).
    specialize (Hall ch Hin). rewrite H in Hall. unfold implb in Hall.
    apply existsb_exists in Hall. destruct Hall as (a & Ha & E).
    apply N.eqb_eq in E. now subst a.
  - unfold accepts in H. apply existsb_exists in H.
    destruct H as (a & Ha & E). apply N.eqb_eq in E.
    pose proof (Canonicalize_not_ascii Hge) as Hc.
    remember (Canonicalize ch) as cc eqn:Ecc.
    vm_compute in Ha.
    destruct Ha as [<-|[<-|[<-|[<-|[<-|[<-|[]]]]]]];
      vm_compute in E; subst cc;
      try (rewrite <- E in Hc; vm_compute in Hc; now elim Hc);
      symmetry in E; apply Canonicalize_MU in E;
      unfold unitPrefixes; simpl; intuition.
Qed.

Import ComponentAnalyzer Reference.



Lemma capacitancePattern_shape (text : jsstring) (m : MatchResult) :
  match_ text capacitancePattern = Some m ->
  exists number prefix farad,
    at_ m 1 = Some number /\ at_ m 2 = Some (prefix ++ [farad]) /\
    isNumber number /\
    (prefix = [] \/ exists ch, prefix = [ch] /\ In ch unitPrefixes) /\
    (farad = 70%N \/ farad = 102%N) /\ occursIn number text.
Proof.
  intro H. apply execFrom_sound in H.
  destruct H as (skipped & x & y & -> & Hd & _).
  unfold capacitancePattern in Hd.
  unfold seq at 1 in Hd.
  inversion Hd as [ | |? ? ? ? y1 c1 ? ? Hg1 Hr1| | | | | | | ]; subst.
  inversion Hr1 as [ | |? ? ? ? y2 c2 ? ? Hsp Hr2| | | | | | | ]; subst.
  inversion Hr2 as [ | |? ? ? ? y3 c3 ? ? Hg2 He| | | | | | | ]; subst.
  inversion He; subst.
  inversion Hg1 as [ | | | | |? ? ? ? ? c1' Hnum| | | | ]; subst.
  inversion Hg2 as [ | | | | |? ? ? ? ? c2' Hunit| | | | ]; subst.
  pose proof (derives_groupless Hnum eq_refl) as ->.
  pose proof (derives_groupless Hsp eq_refl) as ->.
  pose proof (derives_groupless Hunit eq_refl) as ->.
  destruct (number_shape Hnum) as (number & -> & Hshape).
  inversion Hunit as [ | |? ? ? ? ym cm ? ? Hpre Hf| | | | | | | ]; subst.
  inversion Hf as [ |? farad ? ? Hfarad| | | | | | | | ]; subst.
  destruct (quantified_class Hpre eq_refl) as (p & -> & Hp & _ & Hhi).
  { intros n Hn. inversion Hn. lia. }
  exists number, p, farad. unfold at_.
  match goal with H : _ = groups m |- _ => rewrite <- H end. simpl.
  rewrite firstn_consumed.
  replace (p ++ farad :: y) with ((p ++ [farad]) ++ y)
    by (rewrite <- app_assoc; reflexivity).
  rewrite firstn_consumed. repeat split; try assumption.
  - specialize (Hhi 1 eq_refl).
    destruct p as [|ch [|ch' p]]; [now left| |simpl in Hhi; lia].
    right. exists ch. split; [reflexivity|].
    inversion Hp as [|? ? Hch _]; subst. now apply unitPrefix_class.
  - now apply farad_class.
  - exists skipped, y1. reflexivity.
Qed.


End ValueShapes.

Lemma firstOf_some (f : jsstring -> option jsstring) (texts : list jsstring)
      (v : jsstring) :
  firstOf f texts = Some v -> exists text, In text texts /\ f text = Some v.
Proof.
  induction texts as [|t texts IH]; simpl; [discriminate|].
  destruct (f t) as [w|] eqn:E.
  - intro H. inversion H; subst. exists t. auto.
  - intro H. destruct (IH H) as (text & Hin & Hf). exists text. auto.
Qed.

Lemma lastOf_some (f : jsstring -> option jsstring) (texts : list jsstring)
      (v : jsstring) :
  lastOf f texts = Some v -> exists text, In text texts /\ f text = Some v.
Proof.
  unfold lastOf. intro H. apply firstOf_some in H.
  destruct H as (text & Hin & Hf). exists text. split; [|exact Hf].
  now apply in_rev.
Qed.





(* ===================================================================== *)
(** ** From the detections to the summary *)
(* ===================================================================== *)

Lemma truthy_nonempty (a : jsstring) (ch : N) (b : jsstring) :
  truthy (Some (a ++ ch :: b)) = true.
Proof. destruct a; reflexivity. Qed.

Lemma resistanceOf_truthy (text v : jsstring) :
  resistanceOf text = Some v -> truthy (Some v) = true.
Proof.
  intro H. apply resistanceOf_defined in H.
  destruct H as (m & number & multiplier & _ & _ & _ & ->).
  rewrite app_assoc. apply truthy_nonempty.
Qed.

Lemma voltageOf_truthy (text v : jsstring) :
  voltageOf text = Some v -> truthy (Some v) = true.
Proof.
  intro H. apply voltageOf_defined in H.
  destruct H as (m & number & _ & _ & ->). apply truthy_nonempty.
Qed.

Lemma capacitanceOf_truthy (text v : jsstring) :
  capacitanceOf text = Some v -> truthy (Some v) = true.
Proof.
  unfold capacitanceOf.
  destruct (RegExp.match_ text capacitancePattern) as [m|] eqn:E;
    [|discriminate].
  destruct (capacitancePattern_shape _ E)
    as (number & prefix & farad & H1 & H2 & _).
  rewrite H1, H2. simpl. intro H. inversion H; subst v.
  rewrite app_assoc. apply truthy_nonempty.
Qed.

Lemma analyzeResistor_fields (labels : list Label.t)
      (textDetections : list TextDetection.t) :
  analyzeResistor labels textDetections =
  let banded := (2 <=? List.length (filter namesColor labels))%nat in
  ResistorAnalysis.mk
    banded
    (if banded then map Label.Name (filter namesColor labels) else [])
    (firstOf resistanceOf (lineTexts textDetections))
    (if banded
     then Some (js "Resistor identified with visible color bands")
     else None).
Proof.
  unfold analyzeResistor. cbv zeta.
  change (filter isColorLabel labels) with (filter namesColor labels).
  destruct (2 <=? List.length (filter namesColor labels))%nat;
    cbn [ResistorAnalysis.estimatedValue ResistorAnalysis.hasColorBands
         ResistorAnalysis.detectedColors ResistorAnalysis.note];
    rewrite scanResistance_firstOf;
    now destruct (firstOf resistanceOf (lineTexts textDetections)).
Qed.

Lemma analyzeCapacitor_fields (textDetections : list TextDetection.t) :
  analyzeCapacitor textDetections =
  CapacitorAnalysis.mk (lastOf capacitanceOf (lineTexts textDetections))
                       (lastOf voltageOf (lineTexts textDetections)).
Proof.
  unfold analyzeCapacitor.
  destruct (capacitor_loop (lineTexts textDetections)
              (CapacitorAnalysis.mk None None)) as [He Hv].
  destruct (fold_left capacitorStep (lineTexts textDetections)
              (CapacitorAnalysis.mk None None)) as [e v].
  simpl in He, Hv. subst e v. f_equal.
  - now destruct (lastOf capacitanceOf (lineTexts textDetections)).
  - now destruct (lastOf voltageOf (lineTexts textDetections)).
Qed.

(** X12.  For a result of type "resistor" the summary is the header and
    one more line at most: the value from the first line the resistance
    pattern matches, or, when there is none, the names of the colour
    labels if there are at least two of them. *)
Theorem summary_of_resistor :
  forall (labels : list Label.t) (textDetections : list TextDetection.t),
    let r := interpretResults labels textDetections in
    ComponentData.type r = js "resistor" ->
    generateIdentificationSummary r =
      header (ComponentData.type r) (ComponentData.confidence r) ++
      match firstOf resistanceOf (lineTexts textDetections) with
      | Some v => valueLine v
      | None =>
          if (2 <=? List.length (filter namesColor labels))%nat
          then colorLine (map Label.Name (filter namesColor labels))
          else []
      end.
Proof.
  intros labels textDetections r Htype. subst r.
  unfold interpretResults in *.
  destruct (identifyComponentType labels) as [|top rest];
    [vm_compute in Htype; discriminate|].
  cbn [ComponentData.type] in Htype.
  rewrite Htype.
  replace (eqs (js "resistor") (js "resistor")) with true by reflexivity.
  unfold generateIdentificationSummary. cbv zeta.
  cbn [ComponentData.type ComponentData.confidence ComponentData.analysis
       Analysis.resistor].
  replace (eqs (js "resistor") (js "resistor")) with true by reflexivity.
  fold (header (js "resistor") (TypeMatch.confidence top)).
  rewrite analyzeResistor_fields. cbv zeta.
  cbn [ResistorAnalysis.estimatedValue ResistorAnalysis.hasColorBands
       ResistorAnalysis.detectedColors].
  destruct (firstOf resistanceOf (lineTexts textDetections)) as [v|] eqn:E.
  - apply firstOf_some in E. destruct E as (text & _ & Hv).
    rewrite (resistanceOf_truthy _ Hv). reflexivity.
  - simpl truthy. cbv iota.
    destruct (2 <=? List.length (filter namesColor labels))%nat;
      [reflexivity | now rewrite app_nil_r].
Qed.

Lemma summary_of_resistor_witness :
  let labels := [Label.mk (js "Resistor") 90] in
  let detections := [line (js "R12") 95; line (js "4.7 kohm") 99] in
  ComponentData.type (interpretResults labels detections) = js "resistor" /\
  generateIdentificationSummary (interpretResults labels detections) =
    js "Identified as: resistor (90.0% confidence)" ++ [10%N] ++
    js "Estimated value: 4.7k" ++ [OMEGA].
Proof.
  intros labels detections. split; [reflexivity|].
  exact (summary_of_resistor labels detections eq_refl).
Defined.

(** X13.  For a result of type "capacitor" the summary is the header,
    then the capacitance of the last line the capacitance pattern
    matches, if any, then the voltage of the last line the voltage
    pattern matches, if any. *)
Theorem summary_of_capacitor :
  forall (labels : list Label.t) (textDetections : list TextDetection.t),
    let r := interpretResults labels textDetections in
    ComponentData.type r = js "capacitor" ->
    generateIdentificationSummary r =
      header (ComponentData.type r) (ComponentData.confidence r) ++
      optionalLine valueLine
        (lastOf capacitanceOf (lineTexts textDetections)) ++
      optionalLine voltageLine
        (lastOf voltageOf (lineTexts textDetections)).
Proof.
  intros labels textDetections r Htype. subst r.
  unfold interpretResults in *.
  destruct (identifyComponentType labels) as [|top rest];
    [vm_compute in Htype; discriminate|].
  cbn [ComponentData.type] in Htype.
  rewrite Htype.
  replace (eqs (js "capacitor") (js "resistor")) with false by reflexivity.
  replace (eqs (js "capacitor") (js "capacitor")) with true by reflexivity.
  unfold generateIdentificationSummary. cbv zeta.
  cbn [ComponentData.type ComponentData.confidence ComponentData.analysis
       Analysis.resistor Analysis.capacitor].
  replace (eqs (js "capacitor") (js "resistor")) with false by reflexivity.
  replace (eqs (js "capacitor") (js "capacitor")) with true by reflexivity.
  fold (header (js "capacitor") (TypeMatch.confidence top)).
  rewrite analyzeCapacitor_fields.
  cbn [CapacitorAnalysis.estimatedValue CapacitorAnalysis.voltage].
  destruct (lastOf capacitanceOf (lineTexts textDetections)) as [v|] eqn:Ec;
    destruct (lastOf voltageOf (lineTexts textDetections)) as [w|] eqn:Ev;
    try (apply lastOf_some in Ec; destruct Ec as (t1 & _ & Hc);
         rewrite (capacitanceOf_truthy _ Hc));
    try (apply lastOf_some in Ev; destruct Ev as (t2 & _ & Hv);
         rewrite (voltageOf_truthy _ Hv));
    simpl truthy; cbv iota; unfold optionalLine, valueLine, voltageLine;
    simpl interp; rewrite <- ?app_assoc, ?app_nil_r; reflexivity.
Qed.

Lemma summary_of_capacitor_witness :
  let labels := [Label.mk (js "Electrolytic Capacitor") (997 # 10)] in
  let detections := [line (js "10uF") 99; line (js "16V") 99;
                     line (js "22uF") 99] in
  ComponentData.type (interpretResults labels detections) = js "capacitor" /\
  generateIdentificationSummary (interpretResults labels detections) =
    js "Identified as: capacitor (99.7% confidence)" ++ [10%N] ++
    js "Estimated value: 22uF" ++ [10%N] ++ js "Rated voltage: 16V".
Proof.
  intros labels detections. split; [reflexivity|].
  exact (summary_of_capacitor labels detections eq_refl).
Defined.

(** X14.  For a result of type "integrated_circuit" the summary is the
    header and, when there is a part number, one line with the part
    numbers in the order of their lines; the advisories are not shown. *)
Theorem summary_of_integrated_circuit :
  forall (labels : list Label.t) (textDetections : list TextDetection.t),
    let r := interpretResults labels textDetections in
    ComponentData.type r = js "integrated_circuit" ->
    generateIdentificationSummary r =
      header (ComponentData.type r) (ComponentData.confidence r) ++
      match map trim (filter isPartNumber (lineTexts textDetections)) with
      | [] => []
      | numbers => partNumbersLine numbers
      end.
Proof.
  intros labels textDetections r Htype. subst r.
  unfold interpretResults in *.
  destruct (identifyComponentType labels) as [|top rest];
    [vm_compute in Htype; discriminate|].
  cbn [ComponentData.type] in Htype.
  rewrite Htype.
  replace (eqs (js "integrated_circuit") (js "resistor")) with false
    by reflexivity.
  replace (eqs (js "integrated_circuit") (js "capacitor")) with false
    by reflexivity.
  replace (eqs (js "integrated_circuit") (js "integrated_circuit")) with true
    by reflexivity.
  unfold generateIdentificationSummary. cbv zeta.
  cbn [ComponentData.type ComponentData.confidence ComponentData.analysis
       Analysis.resistor Analysis.capacitor Analysis.ic].
  replace (eqs (js "integrated_circuit") (js "resistor")) with false
    by reflexivity.
  replace (eqs (js "integrated_circuit") (js "capacitor")) with false
    by reflexivity.
  replace (eqs (js "integrated_circuit") (js "integrated_circuit")) with true
    by reflexivity.
  fold (header (js "integrated_circuit") (TypeMatch.confidence top)).
  rewrite analyzeIC_lists. cbn [ICAnalysis.partNumbers].
  destruct (map trim (filter isPartNumber (lineTexts textDetections)));
    cbn [List.length Nat.ltb Nat.leb]; [now rewrite app_nil_r | reflexivity].
Qed.

Lemma summary_of_integrated_circuit_witness :
  let labels := [Label.mk (js "Microchip") 85] in
  let detections := [line (js "LM358") 99; line (js "TI 2024") 90;
                     line (js " NE555 ") 97] in
  ComponentData.type (interpretResults labels detections) =
    js "integrated_circuit" /\
  generateIdentificationSummary (interpretResults labels detections) =
    js "Identified as: integrated_circuit (85.0% confidence)" ++ [10%N] ++
    js "Detected part numbers: LM358, NE555".
Proof.
  intros labels detections. split; [reflexivity|].
  exact (summary_of_integrated_circuit labels detections eq_refl).
Defined.

(* ===================================================================== *)
(** ** The types of the classifier and the declared component types *)
(* ===================================================================== *)

Lemma classifier_types_distinct (labels : list Label.t) :
  NoDup (map TypeMatch.type (identifyComponentType labels)) /\
  incl (map TypeMatch.type (identifyComponentType labels)) canonicalTypes.
Proof.
  pose proof (sort_permutation (collectedMatches labels)) as Hp.
  rewrite <- identifyComponentType_sort in Hp.
  pose proof (Permutation_map TypeMatch.type Hp) as Hm.
  unfold collectedMatches in Hm. rewrite collected_types in Hm.
  split.
  - eapply Permutation_NoDup; [exact Hm|].
    apply NoDup_map_filter. exact canonicalTypes_NoDup.
  - intros t Ht. eapply Permutation_in in Ht; [|apply Permutation_sym, Hm].
    apply in_map_iff in Ht. destruct Ht as (entry & <- & He).
    apply filter_In in He. unfold canonicalTypes. apply in_map. tauto.
Qed.

(** X15.  The type of a result is either "unknown", which is not one of
    the declared [ComponentTypes], or one of them; the declared types
    "led", "switch", "sensor" and "other" never come out of the
    classifier. *)
Theorem interpretResults_declared_types :
  forall (labels : list Label.t) (textDetections : list TextDetection.t),
    let r := interpretResults labels textDetections in
    let declared := Constants.values Constants.ComponentTypes in
    (ComponentData.type r = js "unknown" \/
     In (ComponentData.type r) declared) /\
    ~ In (js "unknown") declared /\
    ~ In (ComponentData.type r)
         [js "led"; js "switch"; js "sensor"; js "other"].
Proof.
  intros labels textDetections r declared. subst r declared.
  assert (H : ComponentData.type (interpretResults labels textDetections) =
              js "unknown" \/
              In (ComponentData.type (interpretResults labels textDetections))
                 canonicalTypes).
  { unfold interpretResults.
    destruct (identifyComponentType labels) as [|top rest] eqn:E;
      [now left | right]. simpl.
    destruct (classifier_types_distinct labels) as [_ Hincl].
    apply Hincl. rewrite E; simpl. now left. }
  split; [|split].
  - destruct H as [H|H]; [now left | right].
    revert H. generalize (ComponentData.type
                            (interpretResults labels textDetections)).
    intros t Ht. vm_compute in Ht. vm_compute.
    intuition (subst; auto 12).
  - vm_compute. intuition discriminate.
  - destruct H as [H|H].
    + rewrite H. vm_compute. intuition discriminate.
    + revert H. generalize (ComponentData.type
                              (interpretResults labels textDetections)).
      intros t Ht Hin. vm_compute in Ht. vm_compute in Hin.
      intuition (subst; discriminate).
Qed.

(* ===================================================================== *)
(** ** Properties of the calls to the vision service *)
(* ===================================================================== *)

Import Control AnalyzerService.

(** X16.  When the image source has neither a bucket with a key nor
    bytes (a missing or empty bucket or key counts as none),
    [analyzeComponent] sends nothing to the service and is rejected with
    the message of [buildImageParam]. *)
Theorem analyzeComponent_invalid_source :
  forall (a : Analyzer) (imageSource : ImageSource),
    truthy (bucket imageSource) && truthy (key imageSource) = false ->
    bytes imageSource = None ->
    analyzeComponent a imageSource =
      ([], Rejected [invalidSource; invalidSource]).
Proof.
  intros a imageSource Hs3 Hbytes.
  unfold analyzeComponent, detectLabels, detectText, buildImageParam.
  rewrite Hs3, Hbytes. reflexivity.
Qed.

Lemma analyzeComponent_invalid_source_witness :
  let a := mkAnalyzer (fun _ => Resolved (mkReply None None)) 70 in
  let imageSource := mkSource None (Some (js "uploads/component.jpg")) None in
  truthy (bucket imageSource) && truthy (key imageSource) = false /\
  bytes imageSource = None /\
  analyzeComponent a imageSource =
    ([], Rejected [invalidSource; invalidSource]).
Proof.
  intros a imageSource. split; [reflexivity|]. split; [reflexivity|].
  exact (analyzeComponent_invalid_source a imageSource eq_refl eq_refl).
Defined.

(** X17.  For a valid image source [analyzeComponent] sends two
    commands for the same image, the labels one first, with the
    analyzer's minimum confidence and at most 20 labels; when the service
    answers both, the promise is fulfilled with [interpretResults] of the
    two answers, an answer without its list counting as the empty
    list. *)
Theorem analyzeComponent_composes :
  forall (a : Analyzer) (imageSource : ImageSource) (image : Image)
         (labels text : Reply),
    buildImageParam imageSource = Returns image ->
    client a (DetectLabelsCommand image (minConfidence a) 20) =
      Resolved labels ->
    client a (DetectTextCommand image) = Resolved text ->
    analyzeComponent a imageSource =
      ([DetectLabelsCommand image (minConfidence a) 20;
        DetectTextCommand image],
       Fulfilled (interpretResults (orEmpty (Labels labels))
                                   (orEmpty (TextDetections text)))).
Proof.
  intros a imageSource image labels text Himage Hlabels Htext.
  unfold analyzeComponent, detectLabels, detectText.
  rewrite Himage. cbv zeta. rewrite Hlabels, Htext. reflexivity.
Qed.

Lemma analyzeComponent_composes_witness :
  let image := S3Object (js "parts") (js "uploads/component.jpg") in
  let a := mkAnalyzer (fun _ => Resolved (mkReply None None)) 70 in
  let imageSource :=
    mkSource (Some (js "parts")) (Some (js "uploads/component.jpg"))
             (Some [1%N; 2%N]) in
  buildImageParam imageSource = Returns image /\
  analyzeComponent a imageSource =
    ([DetectLabelsCommand image 70 20; DetectTextCommand image],
     Fulfilled (ComponentData.mk 0 (js "unknown") [] [] []
                                 (Analysis.mk None None None))).
Proof.
  intros image a imageSource. split; [reflexivity|].
  exact (analyzeComponent_composes a imageSource
           (labels := mkReply None None) (text := mkReply None None)
           eq_refl eq_refl eq_refl).
Defined.

(** X18.  The minimum confidence sent to the service is never 0: the
    constructor replaces a configured 0, like a missing one, by 70, and
    keeps any other number; every labels request carries it, with at
    most 20 labels. *)
Theorem detectLabels_minConfidence :
  forall (RekognitionClient : jsstring -> Command -> Response)
         (AWS_REGION : option jsstring) (config : Config)
         (imageSource : ImageSource),
    let a := constructor RekognitionClient AWS_REGION config in
    let expected :=
      match configMinConfidence config with
      | Some q => if Qeq_bool q 0 then 70%Q else q
      | None => 70%Q
      end in
    ~ (expected == 0)%Q /\
    Forall (fun command =>
              exists image, command = DetectLabelsCommand image expected 20)
           (fst (detectLabels a imageSource)).
Proof.
  intros RekognitionClient AWS_REGION config imageSource a expected.
  subst a expected. split.
  - destruct (configMinConfidence config) as [q|]; [|discriminate].
    destruct (Qeq_bool q 0) eqn:E; [discriminate|].
    intro H. apply Qeq_bool_iff in H. congruence.
  - unfold detectLabels.
    destruct (buildImageParam imageSource) as [image|e]; simpl;
      [|constructor].
    constructor; [|constructor]. exists image. reflexivity.
Qed.

(* ===================================================================== *)
(** ** Properties of CognitoAuth *)
(* ===================================================================== *)

Import CognitoAuth.

(** X19.  [extractTokenFromEvent] gives back the token of a header
    "Bearer <token>" whatever the token is, also the empty one; the
    header [authorization] is read when [Authorization] is missing or
    empty, and only then. *)
Theorem extractTokenFromEvent_bearer :
  forall (t : jsstring) (other : option jsstring),
    extractTokenFromEvent
      (mkEvent (Some (mkHeaders (Some (js "Bearer " ++ t)) other))) =
      Returns t /\
    extractTokenFromEvent
      (mkEvent (Some (mkHeaders None (Some (js "Bearer " ++ t))))) =
      Returns t /\
    extractTokenFromEvent
      (mkEvent (Some (mkHeaders (Some []) (Some (js "Bearer " ++ t))))) =
      Returns t.
Proof.
  intros t other. repeat split; reflexivity.
Qed.

(** X20.  [getUserContext] fails with one of two messages only: there
    is no authorization header, or the token is expired; a token that
    cannot be decoded, or whose payload is [null], is reported as
    expired, never as malformed.  When it succeeds, the token is the one
    extracted from the event, the user id is [sub], or
    [cognito:username] when [sub] is missing or empty, and the email is
    the payload's. *)
Theorem getUserContext_outcomes :
  forall (decode : jsstring -> Decoded) (nullPropertyMessage : jsstring)
         (now : Z) (event : Event),
    match getUserContext decode nullPropertyMessage now event with
    | Throws message =>
        (extractTokenFromEvent event =
           Throws (js "No authorization header found") /\
         message =
           js "Authentication failed: No authorization header found") \/
        ((exists token,
            extractTokenFromEvent event = Returns token /\
            isTokenExpired decode now token = true) /\
         message = js "Authentication failed: Token expired")
    | Returns context =>
        extractTokenFromEvent event = Returns (token context) /\
        isTokenExpired decode now (token context) = false /\
        exists payload,
          decode (token context) = Value payload /\
          userId context = orElse (sub payload) (cognito_username payload) /\
          contextEmail context = email payload
    end.
Proof.
  intros decode nullPropertyMessage now event.
  unfold getUserContext.
  destruct (extractTokenFromEvent event) as [token|e] eqn:Ex.
  - destruct (isTokenExpired decode now token) eqn:Eexp.
    + right. split; [exists token; auto | reflexivity].
    + pose proof Eexp as Hlive.
      unfold getUserIdFromToken, getEmailFromToken.
      unfold isTokenExpired in Eexp. unfold parseToken in *.
      destruct (decode token) as [| |payload] eqn:Ed; try discriminate.
      simpl.
      split; [reflexivity|]. split; [exact Hlive|].
      exists payload. repeat split. exact Ed.
  - assert (He : e = js "No authorization header found").
    { unfold extractTokenFromEvent in Ex.
      destruct (negb (truthy (authHeaderOf event)));
        [inversion Ex; reflexivity|].
      destruct (startsWith (js "Bearer ") (interp (authHeaderOf event)));
        discriminate. }
    subst e. left. split; reflexivity.
Qed.

(** X21.  A malformed token and a [null] payload count as expired at
    any time, and a payload without [exp] never does.  A token whose
    [exp] is the whole second [e] is accepted until the last millisecond
    of that second: it is expired exactly when the clock has reached
    1000 (e + 1) milliseconds. *)
Theorem isTokenExpired_boundary :
  forall (decode : jsstring -> Decoded) (now : Z) (token : jsstring),
    match decode token with
    | Malformed | Null => isTokenExpired decode now token = true
    | Value payload =>
        match exp payload with
        | None => isTokenExpired decode now token = false
        | Some e =>
            forall z : Z,
              e = inject_Z z ->
              isTokenExpired decode now token = (1000 * (z + 1) <=? now)%Z
        end
    end.
Proof.
  intros decode now token. unfold isTokenExpired, parseToken.
  destruct (decode token) as [| |payload]; try reflexivity.
  destruct (exp payload) as [e|]; [|reflexivity].
  intros z ->. cbv zeta.
  destruct (Qle_bool (inject_Z (now / 1000)) (inject_Z z)) eqn:E;
    cbn [negb].
  - apply Qle_bool_iff in E. rewrite <- Zle_Qle in E.
    symmetry. apply Z.leb_gt.
    assert (now < 1000 * (now / 1000 + 1))%Z.
    { assert (H0 : (0 < 1000)%Z) by lia.
      pose proof (Z.mul_succ_div_gt now 1000 H0). lia. }
    lia.
  - symmetry. apply Z.leb_le.
    assert (Hgt : (z < now / 1000)%Z).
    { apply Z.lt_nge. intro Hle. rewrite Zle_Qle in Hle.
      apply Qle_bool_iff in Hle. congruence. }
    assert (H0 : (0 < 1000)%Z) by lia.
    pose proof (Z.mul_div_le now 1000 H0). lia.
Qed.

Lemma isTokenExpired_boundary_witness :
  let decode := fun _ : jsstring =>
    Value (mkPayload (Some (js "user-1")) None None
                     (Some (inject_Z 1700000000))) in
  isTokenExpired decode 1700000000999 (js "a.b.c") = false /\
  isTokenExpired decode 1700000001000 (js "a.b.c") = true.
Proof.
  intro decode. split.
  - exact (isTokenExpired_boundary decode 1700000000999 (js "a.b.c")
             1700000000%Z eq_refl).
  - exact (isTokenExpired_boundary decode 1700000001000 (js "a.b.c")
             1700000000%Z eq_refl).
Defined.

(* ===================================================================== *)
(** ** Properties of ComponentDatabase *)
(* ===================================================================== *)

Import Objects ComponentDatabase.

Lemma eqs_refl (a : jsstring) : eqs a a = true.
Proof. now apply eqs_true. Qed.

Lemma eqs_false (a b : jsstring) : eqs a b = false <-> a <> b.
Proof.
  unfold eqs. destruct (list_eq_dec N.eq_dec a b); split; congruence.
Qed.

Lemma get_assign_eq (k : jsstring) (v : value) (o : object) :
  get k (assign k v o) = Some v.
Proof.
  induction o as [|[k' v'] o IH]; simpl.
  - now rewrite eqs_refl.
  - destruct (eqs k k') eqn:E; simpl; [now rewrite eqs_refl|].
    now rewrite E.
Qed.

Lemma get_assign_ne (k k' : jsstring) (v : value) (o : object) :
  k <> k' -> get k (assign k' v o) = get k o.
Proof.
  intro Hne. induction o as [|[k'' v''] o IH]; simpl.
  - apply eqs_false in Hne. now rewrite Hne.
  - destruct (eqs k' k'') eqn:E; simpl.
    + apply eqs_true in E. subst k''. apply eqs_false in Hne.
      now rewrite Hne.
    + now rewrite IH.
Qed.


Lemma get_None (k : jsstring) (o : object) :
  get k o = None <-> ~ In k (map fst o).
Proof.
  induction o as [|[k' v'] o IH]; simpl; [tauto|].
  destruct (eqs k k') eqn:E.
  - apply eqs_true in E. subst. split; [discriminate | intro H; tauto].
  - apply eqs_false in E. rewrite IH. split; [intros H [H'|H']; auto|tauto].
Qed.

(** A property of the result of a spread is the source's when the
    source has it, the target's otherwise. *)
Lemma get_spread (k : jsstring) (target source : object) :
  NoDup (map fst source) ->
  get k (spread target source) =
  match get k source with
  | Some v => Some v
  | None => get k target
  end.
Proof.
  unfold spread. revert target.
  induction source as [|[k' v'] source IH]; intros target Hnd; simpl;
    [reflexivity|].
  inversion Hnd as [|? ? Hnotin Hnd']; subst.
  rewrite (IH _ Hnd').
  destruct (eqs k k') eqn:E.
  - apply eqs_true in E. subst k'.
    apply get_None in Hnotin. rewrite Hnotin. apply get_assign_eq.
  - apply eqs_false in E.
    destruct (get k source); [reflexivity|]. now apply get_assign_ne.
Qed.

Ltac distinct_keys := let H := fresh in intro H; vm_compute in H; discriminate.

(** X22.  The item [createComponent] stores always carries the time of
    creation as [createdAt] and [updatedAt], whatever the component
    says; every other property of the component is stored as given, and
    that includes [userId] and [componentId]: a component that has them
    replaces the caller's user id and the generated id. *)
Theorem createComponent_item :
  forall (db : Database) (timestamp : jsstring) (now : Z) (random : jsstring)
         (userId : value) (component : object),
    NoDup (map fst component) ->
    exists item,
      fst (createComponent db timestamp now random userId component) =
        [PutCommand (tableName db) item] /\
      get (js "createdAt") item = Some (VStr timestamp) /\
      get (js "updatedAt") item = Some (VStr timestamp) /\
      get (js "userId") item =
        Some (match get (js "userId") component with
              | Some v => v
              | None => userId
              end) /\
      get (js "componentId") item =
        Some (match get (js "componentId") component with
              | Some v => v
              | None => VStr (decimal now ++ js "_" ++ random)
              end) /\
      forall k v,
        get k component = Some v ->
        ~ In k [js "createdAt"; js "updatedAt"; js "stockHistory"] ->
        get k item = Some v.
Proof.
  intros db timestamp now random userId component Hnd.
  unfold createComponent. cbv zeta. eexists. split; [reflexivity|].
  repeat split.
  - rewrite get_assign_ne by distinct_keys.
    rewrite get_assign_ne by distinct_keys.
    apply get_assign_eq.
  - rewrite get_assign_ne by distinct_keys. apply get_assign_eq.
  - rewrite !get_assign_ne by distinct_keys.
    rewrite get_spread by exact Hnd.
    destruct (get (js "userId") component); reflexivity.
  - rewrite !get_assign_ne by distinct_keys.
    rewrite get_spread by exact Hnd.
    destruct (get (js "componentId") component); reflexivity.
  - intros k v Hk Hnot. simpl in Hnot.
    rewrite !get_assign_ne by (intro E; apply Hnot; subst; tauto).
    rewrite get_spread by exact Hnd. rewrite Hk. reflexivity.
Qed.

Lemma createComponent_item_witness :
  let db := mkDatabase (fun _ => Resolved (mkResult None None))
                       (js "CircuitStreamComponents") in
  let component :=
    [(js "name", VStr (js "NE555")); (js "userId", VStr (js "mallory"));
     (js "createdAt", VStr (js "1999"))] in
  NoDup (map fst component) /\
  exists item,
    fst (createComponent db (js "2026-01-01T00:00:00.000Z") 1767225600000
           (js "k3j9x0a1b") (VStr (js "alice")) component) =
      [PutCommand (tableName db) item] /\
    get (js "createdAt") item = Some (VStr (js "2026-01-01T00:00:00.000Z")) /\
    get (js "userId") item = Some (VStr (js "mallory")).
Proof.
  intros db component.
  assert (Hnd : NoDup (map fst component)).
  { vm_compute. repeat constructor; simpl; intuition discriminate. }
  split; [exact Hnd|].
  destruct (createComponent_item db (js "2026-01-01T00:00:00.000Z")
              1767225600000 (js "k3j9x0a1b") (VStr (js "alice")) component
              Hnd)
    as (item & Hsent & Hcreated & _ & Huser & _).
  exists item. repeat split; assumption.
Defined.

(** X23.  [getLowStockComponents] with a threshold of 0 asks for all
    the components of the user, without any filter, exactly as
    [getUserComponents] without filters does. *)
Theorem getLowStockComponents_zero :
  forall (db : Database) (userId : value) (q : Q),
    (q == 0)%Q ->
    getLowStockComponents db userId (Some q) =
      getUserComponents db userId noFilters /\
    fst (getLowStockComponents db userId (Some q)) =
      [QueryCommand (mkQuery (tableName db) (js "userId = :userId")
                             [(js ":userId", userId)] None)].
Proof.
  intros db userId q Hq. apply Qeq_bool_iff in Hq.
  unfold getLowStockComponents, getUserComponents. simpl.
  rewrite Hq. split; reflexivity.
Qed.

Lemma getLowStockComponents_zero_witness :
  let db := mkDatabase (fun _ => Resolved (mkResult None None))
                       (js "CircuitStreamComponents") in
  (0 == 0)%Q /\
  getLowStockComponents db (VStr (js "alice")) (Some 0%Q) =
    getUserComponents db (VStr (js "alice")) noFilters.
Proof.
  intro db. split; [reflexivity|].
  exact (proj1 (@getLowStockComponents_zero db (VStr (js "alice")) 0%Q
                  (Qeq_refl 0))).
Defined.

Import DatabaseVocabulary.

(** X24.  The query [getUserComponents] sends binds exactly the
    placeholders its expressions use: the user id always, the type when
    the type filter is not empty, the threshold when [lowStock] is given
    and the threshold is not 0. *)
Theorem getUserComponents_placeholders :
  forall (db : Database) (userId : value) (filters : Filters),
    exists params,
      fst (getUserComponents db userId filters) = [QueryCommand params] /\
      map fst (ExpressionAttributeValues params) =
        filter (includes (expressions params)) queryPlaceholders /\
      map fst (ExpressionAttributeValues params) =
        [js ":userId"] ++
        (if truthy (type filters) then [js ":type"] else []) ++
        (match lowStock filters, threshold filters with
         | Some _, Some q => if Qeq_bool q 0 then [] else [js ":threshold"]
         | _, _ => []
         end).
Proof.
  intros db userId [type lowStock threshold].
  unfold getUserComponents.
  cbn [ComponentDatabase.type ComponentDatabase.lowStock
       ComponentDatabase.threshold].
  destruct type as [[|ch s]|]; destruct lowStock as [v|];
    destruct threshold as [q|]; try destruct (Qeq_bool q 0);
    cbn [truthy]; cbv iota zeta; eexists;
    (split; [reflexivity | split; vm_compute; reflexivity]).
Qed.

(** *** The placeholders of an update *)
















(* ===================================================================== *)
(** ** Properties of StockAlerts *)
(* ===================================================================== *)

Import StockAlerts AlertVocabulary.

(** X26.  [checkAndAlert] publishes one message or none: out of stock
    when the quantity is 0 or missing, critical when it is at most the
    critical threshold, low when it is at most the low threshold, and
    nothing above both.  The message goes to the topic of the alerts
    with three string attributes, where a missing component id or e-mail
    is the text "undefined". *)
Theorem checkAndAlert_decision :
  forall (numberToString : Q -> jsstring) (alerts : Alerts)
         (component : Component) (userEmail : option jsstring)
         (thresholds : option Thresholds),
    match alertType component thresholds with
    | None =>
        checkAndAlert numberToString alerts component userEmail thresholds =
          ([], Fulfilled NotAlerted)
    | Some kind =>
        exists params,
          fst (checkAndAlert numberToString alerts component userEmail
                 thresholds) = [PublishCommand params] /\
          TopicArn params = topicArn alerts /\
          MessageAttributes params =
            alertAttributes component userEmail kind
    end.
Proof.
  intros numberToString alerts component userEmail thresholds.
  unfold alertType, checkAndAlert. cbv zeta.
  set (t := match thresholds with Some t => t | None => defaultThresholds end).
  destruct (quantity component) as [q|].
  - destruct (Qeq_bool q 0) eqn:E.
    + replace (Qeq_bool 0 0) with true by reflexivity.
      eexists. repeat split.
    + rewrite E.
      destruct (atMost q (critical t)); [eexists; repeat split|].
      destruct (atMost q (low t)); [eexists; repeat split | reflexivity].
  - replace (Qeq_bool 0 0) with true by reflexivity.
    eexists. repeat split.
Qed.

Lemma trim_framed (c d : N) (x : jsstring) :
  isWhiteSpace c = false -> isWhiteSpace d = false ->
  trim ([10%N] ++ (c :: x ++ [d]) ++ [10%N; 32%N; 32%N; 32%N; 32%N]) =
  c :: x ++ [d].
Proof.
  intros Hc Hd. unfold trim.
  change (trimStart ([10%N] ++ (c :: x ++ [d]) ++
                     [10%N; 32%N; 32%N; 32%N; 32%N]))
    with (if isWhiteSpace c
          then trimStart ((x ++ [d]) ++ [10%N; 32%N; 32%N; 32%N; 32%N])
          else (c :: x ++ [d]) ++ [10%N; 32%N; 32%N; 32%N; 32%N]).
  rewrite Hc.
  rewrite rev_app_distr.
  change (rev [10%N; 32%N; 32%N; 32%N; 32%N])
    with [32%N; 32%N; 32%N; 32%N; 10%N].
  change (rev (c :: x ++ [d])) with (rev (x ++ [d]) ++ [c]).
  rewrite rev_app_distr. simpl rev at 2.
  change (trimStart ([32%N; 32%N; 32%N; 32%N; 10%N] ++
                     ([d] ++ rev x) ++ [c]))
    with (if isWhiteSpace d then trimStart (rev x ++ [c])
          else d :: rev x ++ [c]).
  rewrite Hd. simpl. rewrite rev_app_distr, rev_involutive. reflexivity.
Qed.

Lemma trim_template (title middle rest : jsstring) (first : N) :
  title = first :: rest -> isWhiteSpace first = false ->
  trim (nl ++ title ++ middle ++ signatureLine ++ nl ++ js "    ") =
  title ++ middle ++ signatureLine.
Proof.
  intros -> Hfirst.
  replace (nl ++ (first :: rest) ++ middle ++ signatureLine ++ nl ++ js "    ")
    with ([10%N] ++
          (first :: (rest ++ middle ++
                     js "CircuitStream Component Inventory Manage") ++
                    [114%N]) ++
          [10%N; 32%N; 32%N; 32%N; 32%N])
    by (unfold signatureLine; simpl; rewrite <- !app_assoc; reflexivity).
  rewrite trim_framed by (assumption || reflexivity).
  unfold signatureLine. simpl. rewrite <- !app_assoc. reflexivity.
Qed.

Ltac trim_message :=
  match goal with
  | |- trim (nl ++ ?title ++ nl ++ nl ++ ?body ++ nl ++ ?text ++ nl ++ nl ++
             ?rule ++ nl ++ ?sig ++ nl ++ ?indent) = _ =>
      replace (nl ++ title ++ nl ++ nl ++ body ++ nl ++ text ++ nl ++ nl ++
               rule ++ nl ++ sig ++ nl ++ indent)
        with (nl ++ title ++
              (nl ++ nl ++ body ++ nl ++ text ++ nl ++ nl ++ rule ++ nl) ++
              signatureLine ++ nl ++ js "    ")
        by (unfold signatureLine; rewrite <- !app_assoc; reflexivity);
      erewrite trim_template by reflexivity;
      unfold signatureLine; rewrite <- !app_assoc; reflexivity
  end.

(** X27.  Each alert message is its template without the line break
    before it and the line break and indentation after it, whatever the
    fields of the component hold: it begins with its title and ends with
    the signature line. *)
Theorem alert_messages :
  forall (numberToString : Q -> jsstring) (component : Component)
         (threshold : option Q),
    formatLowStockMessage numberToString component =
      js "Low Stock Alert - CircuitStream" ++ nl ++ nl ++
      describe component (stockOf numberToString component ++ js " units") ++
      nl ++
      js "Your component stock is running low. Consider reordering soon." ++
      nl ++ nl ++ js "---" ++ nl ++ signatureLine /\
    formatOutOfStockMessage component =
      js "Out of Stock Alert - CircuitStream" ++ nl ++ nl ++
      describe component (js "0 units") ++ nl ++
      js "This component is now out of stock. Immediate reorder recommended." ++
      nl ++ nl ++ js "---" ++ nl ++ signatureLine /\
    formatCriticalStockMessage numberToString component threshold =
      js "Critical Stock Alert - CircuitStream" ++ nl ++ nl ++
      describe component
        (stockOf numberToString component ++
         js " units (Critical threshold: " ++
         thresholdText numberToString threshold ++ js ")") ++ nl ++
      js "CRITICAL: Stock level has reached critical threshold. Immediate action required." ++
      nl ++ nl ++ js "---" ++ nl ++ signatureLine.
Proof.
  intros numberToString component threshold.
  unfold formatLowStockMessage, formatOutOfStockMessage,
    formatCriticalStockMessage, signature.
  repeat split; trim_message.
Qed.
